(** * corallium.pretty_process: chunked dispatch with progress polling

    A shallow embedding of [src/corallium/pretty_process.py]:
    the chunker [_chunked], the dispatch loop, the polling loop that
    renders the shared progress dictionary, and the collection of the
    job results.  Python integers are [Z], lists are [list], dictionaries
    are [gmap], exceptions are the [Raise] case of [result]. *)

From Stdlib Require Import ZArith QArith Qround Lia List String.
From stdpp Require Import base option list gmap strings.

Local Open Scope Z_scope.

(** ** Exceptions and results *)

(** The exceptions a call can end with: those raised by the module's own
    statements, and [TaskError], standing for whatever a delegated task
    raises in its worker. *)
Inductive Exn : Type :=
  | NameError (name : string)
  | ZeroDivisionError
  | OverflowError
  | ValueError
  | KeyError (key : Z)
  | TaskError (code : Z).

Definition exn_class (e : Exn) : string :=
  match e with
  | NameError _ => "NameError"
  | ZeroDivisionError => "ZeroDivisionError"
  | OverflowError => "OverflowError"
  | ValueError => "ValueError"
  | KeyError _ => "KeyError"
  | TaskError _ => "TaskError"
  end.

Inductive result (A : Type) : Type :=
  | Return (a : A)
  | Raise (e : Exn).
Arguments Return {A} a.
Arguments Raise {A} e.

(** Sequencing: an exception skips the rest, as in Python. *)
#[export] Instance result_bind : MBind result :=
  fun A B (k : A -> result B) (r : result A) =>
    match r with
    | Return a => k a
    | Raise e => Raise e
    end.

Definition is_Return {A : Type} (r : result A) : Prop :=
  exists a, r = Return a.

(** ** Python primitives used by the chunker *)

Module Py.

(** [len(l)] *)
Definition len {A : Type} (l : list A) : Z := Z.of_nat (length l).

(** [a // b]: floor division; [Z.div] rounds to the floor as Python does. *)
Definition floordiv (a b : Z) : result Z :=
  if b =? 0 then Raise ZeroDivisionError else Return (a / b).

(** [a % b]: the remainder has the sign of [b], as [Z.modulo]. *)
Definition mod_ (a b : Z) : result Z :=
  if b =? 0 then Raise ZeroDivisionError else Return (a mod b).

(** The least magnitude that rounds to no finite float: halfway from the
    largest float, [2^1024 - 2^971], to [2^1024]. *)
Definition float_overflow : Z := 2 ^ 1024 - 2 ^ 970.

(** [a / b] on integers: true division.  CPython rounds the quotient to
    the nearest float and raises [OverflowError] when that is no finite
    float.  The rounding itself is not modelled, the model keeps the
    exact quotient: the float has the sign of the quotient, and the same
    ceiling whenever [0 <= a <= b < 2^1074] (the float of a quotient in
    (0, 1] is in (0, 1] too, and no Python list has that many items). *)
Definition truediv (a b : Z) : result Q :=
  if b =? 0 then Raise ZeroDivisionError
  else if float_overflow * Z.abs b <=? Z.abs a then Raise OverflowError
  else Return (inject_Z a / inject_Z b)%Q.

(** [math.ceil] *)
Definition ceil (q : Q) : Z := Qceiling q.

(** [sum(l)] *)
Definition sum (l : list Z) : Z := fold_right Z.add 0 l.

(** Number of items of [range(start, stop, step)] for [step <> 0]. *)
Definition range_len (start stop step : Z) : Z :=
  if 0 <? step then
    if start <? stop then (stop - start - 1) / step + 1 else 0
  else
    if stop <? start then (start - stop - 1) / (- step) + 1 else 0.

(** [range(start, stop, step)], as the list it iterates over. *)
Definition range (start stop step : Z) : result (list Z) :=
  if step =? 0 then Raise ValueError
  else Return (map (fun i : nat => start + Z.of_nat i * step)
                   (seq 0 (Z.to_nat (range_len start stop step)))).

(** A slice bound is counted from the end when negative, and clamped
    to the list. *)
Definition clamp (n i : Z) : Z :=
  if i <? 0 then Z.max 0 (i + n) else Z.min i n.

(** [l[lo:hi]] *)
Definition slice {A : Type} (l : list A) (lo hi : Z) : list A :=
  let n := len l in
  let lo' := clamp n lo in
  let hi' := clamp n hi in
  firstn (Z.to_nat (hi' - lo')) (skipn (Z.to_nat lo') l).

End Py.

(** ** The chunker *)

(** [_chunked(data, count)], lines 37-46. *)
Definition _chunked {A : Type} (data : list A) (count : Z)
  : result (list (list A)) :=
  let size := Py.len data in
  chunk_size ← Py.floordiv size count;
  chunk_rem ← Py.mod_ size count;
  q ← Py.truediv chunk_rem size;
  let chunk_size := chunk_size + Py.ceil q in
  ixs ← Py.range 0 size chunk_size;
  Return (map (fun ix => Py.slice data ix (ix + chunk_size)) ixs).

Definition sizes {A : Type} (chunks : list (list A)) : list Z :=
  map Py.len chunks.

(** [ceil(n / w)] for [w > 0], on integers. *)
Definition ceil_div (n w : Z) : Z := (n + w - 1) / w.

(** The sizes of the chunks differ by at most 1. *)
Definition balanced (ls : list Z) : Prop :=
  forall a b, In a ls -> In b ls -> a - b <= 1.

(** ** The module's global names *)

(** The integer-valued global names after the module body has run.
    [num_cpus] is assigned only under [if __name__ == '__main__']
    (lines 109-120): first 4, then [psutil.cpu_count(logical=False)]
    unless the import or the call raises ([cpu_count = None]). *)
Definition module_globals (dunder_name : string) (cpu_count : option Z)
  : gmap string Z :=
  if String.eqb dunder_name "__main__" then
    let globals := <["num_cpus" := 4]> (∅ : gmap string Z) in
    match cpu_count with
    | Some n => <["num_cpus" := n]> globals
    | None => globals
    end
  else ∅.

(** Reading a global name inside a function. *)
Definition load_global (globals : gmap string Z) (name : string) : result Z :=
  match globals !! name with
  | Some v => Return v
  | None => Raise (NameError name)
  end.

(** ** The state of a run of [pretty_process] *)

(** A submitted job: the keyword arguments of [executor.submit]. *)
Record Job (A : Type) : Type := mkJob {
  job_task_id : Z;
  job_data : list A;
}.
Arguments mkJob {A}.
Arguments job_task_id {A}.
Arguments job_data {A}.

Record State (A : Type) : Type := mkState {
  (** [progress]: the id [add_task] hands out next, and per task the
      [(completed, total)] pair it displays *)
  next_task_id : Z;
  display : gmap Z (Z * Z);
  (** [shared_progress], the manager's dictionary *)
  shared_progress : gmap Z Z;
  totals : gmap Z Z;
  jobs : list (Job A);
  (** [max_workers] of the executor, once it is created *)
  max_workers : option Z;
}.
Arguments mkState {A}.
Arguments next_task_id {A}.
Arguments display {A}.
Arguments shared_progress {A}.
Arguments totals {A}.
Arguments jobs {A}.
Arguments max_workers {A}.

Section Run.

Context {A R : Type}.

(** Lines 69-74: a fresh progress display, dictionary, job list. *)
Definition new_run : State A :=
  mkState 0 ∅ ∅ ∅ [] None.

(** [progress.add_task(description)]: ids count up from 0; a new bar
    shows 0 of rich's default total, 100. *)
Definition add_task (st : State A) : Z * State A :=
  let task_id := next_task_id st in
  (task_id,
   mkState (task_id + 1) (<[task_id := (0, 100)]> (display st))
           (shared_progress st) (totals st) (jobs st) (max_workers st)).

(** [progress.update(task_id, completed=c, total=t)] *)
Definition update (task_id completed total : Z) (st : State A) : State A :=
  mkState (next_task_id st) (<[task_id := (completed, total)]> (display st))
          (shared_progress st) (totals st) (jobs st) (max_workers st).

(** The executor of line 77 once it is created, with its [max_workers]. *)
Definition with_pool (num_workers : Z) (st : State A) : State A :=
  mkState (next_task_id st) (display st) (shared_progress st) (totals st)
          (jobs st) (Some num_workers).

(** [ProcessPoolExecutor(max_workers=num_workers)], line 77: the
    constructor raises [ValueError] unless [max_workers] is positive
    (CPython's [concurrent.futures.process], outside Windows, where it
    also rejects more than 61 workers). *)
Definition open_pool (num_workers : Z) (st : State A) : result (State A) :=
  if num_workers <=? 0 then Raise ValueError
  else Return (with_pool num_workers st).

(** [shared_progress[task_id] = v] *)
Definition set_shared_progress (task_id v : Z) (st : State A) : State A :=
  mkState (next_task_id st) (display st)
          (<[task_id := v]> (shared_progress st)) (totals st) (jobs st)
          (max_workers st).

(** [totals[task_id] = v] *)
Definition set_totals (task_id v : Z) (st : State A) : State A :=
  mkState (next_task_id st) (display st) (shared_progress st)
          (<[task_id := v]> (totals st)) (jobs st) (max_workers st).

(** [jobs.append(executor.submit(delegated_task, task_id=task_id,
    shared_progress=shared_progress, data=chunk))] *)
Definition submit (task_id : Z) (chunk : list A) (st : State A) : State A :=
  mkState (next_task_id st) (display st) (shared_progress st) (totals st)
          (jobs st ++ [mkJob task_id chunk]) (max_workers st).

(** Lines 79-81: the body of the dispatch loop up to the submission. *)
Definition register (chunk : list A) (st : State A) : Z * State A :=
  let '(task_id, st) := add_task st in
  let st := set_shared_progress task_id 0 st in
  let st := set_totals task_id (Py.len chunk) st in
  (task_id, st).

(** Lines 79-84: one iteration of the dispatch loop. *)
Definition dispatch_one (st : State A) (chunk : list A) : State A :=
  let '(task_id, st) := register chunk st in
  submit task_id chunk st.

(** Lines 78-84, as the main process writes them.  The workers run from
    the submission on; their increments are in [dispatch_step] below and
    in the observations of the polling loop. *)
Definition dispatch (chunks : list (list A)) (st : State A) : State A :=
  fold_left dispatch_one chunks st.

(** What holds of a state between two iterations of the dispatch
    loop: the two dictionaries have the keys handed out so far, and
    each submitted job has its entries as they were registered. *)
Record dispatched (st : State A) : Prop := {
  dispatched_fresh_sp :
    forall task_id, is_Some (shared_progress st !! task_id) ->
                    task_id < next_task_id st;
  dispatched_fresh_totals :
    forall task_id, is_Some (totals st !! task_id) ->
                    task_id < next_task_id st;
  dispatched_keys :
    forall task_id, is_Some (shared_progress st !! task_id) ->
                    is_Some (totals st !! task_id);
  dispatched_jobs :
    forall j, In j (jobs st) ->
              shared_progress st !! job_task_id j = Some 0 /\
              totals st !! job_task_id j = Some (Py.len (job_data j));
}.

(** *** Workers *)

(** What a delegated task does when it is run on a chunk: the number
    of times it executes [shared_progress[task_id] += 1], and what it
    returns or raises. *)
Record TaskRun : Type := mkTaskRun {
  increments : Z;
  returned : result R;
}.

Definition Task : Type := Z -> list A -> TaskRun.

(** [shared_progress[task_id] += 1], executed by a worker. *)
Definition increment (task_id : Z) (sp : gmap Z Z) : result (gmap Z Z) :=
  match sp !! task_id with
  | Some v => Return (<[task_id := v + 1]> sp)
  | None => Raise (KeyError task_id)
  end.

(** The dictionary after any number of such increments by the workers
    of the submitted jobs. *)
Inductive worker_steps (js : list (Job A)) : gmap Z Z -> gmap Z Z -> Prop :=
  | worker_steps_refl sp : worker_steps js sp sp
  | worker_steps_incr sp j sp' sp'' :
      In j js ->
      increment (job_task_id j) sp = Return sp' ->
      worker_steps js sp' sp'' ->
      worker_steps js sp sp''.

(** *** The dispatch loop and the workers, side by side *)

(** A worker runs from the submission of its job on, so its increments
    fall between the statements of the dispatch loop too.  [dispatch]
    above is what the main process writes; here the loop is taken one
    statement at a time, with the workers of the jobs submitted so far
    incrementing in between. *)

(** The statement of lines 79-82 that the main process executes next,
    with the task id of the iteration under way. *)
Inductive Pc : Type :=
  | AtAddTask
  | AtSetProgress (task_id : Z)
  | AtSetTotals (task_id : Z)
  | AtSubmit (task_id : Z).

(** The chunks not yet submitted (the first is the chunk of the
    iteration under way), the next statement, and the state. *)
Record Config : Type := mkConfig {
  cfg_todo : list (list A);
  cfg_pc : Pc;
  cfg_state : State A;
}.

(** The manager's dictionary after a worker's write. *)
Definition worker_write (sp : gmap Z Z) (st : State A) : State A :=
  mkState (next_task_id st) (display st) sp (totals st) (jobs st)
          (max_workers st).

Inductive dispatch_step : Config -> Config -> Prop :=
  (** line 79 *)
  | step_add_task chunk rest st :
      dispatch_step
        (mkConfig (chunk :: rest) AtAddTask st)
        (mkConfig (chunk :: rest) (AtSetProgress (fst (add_task st)))
                  (snd (add_task st)))
  (** line 80 *)
  | step_set_progress chunk rest task_id st :
      dispatch_step
        (mkConfig (chunk :: rest) (AtSetProgress task_id) st)
        (mkConfig (chunk :: rest) (AtSetTotals task_id)
                  (set_shared_progress task_id 0 st))
  (** line 81 *)
  | step_set_totals chunk rest task_id st :
      dispatch_step
        (mkConfig (chunk :: rest) (AtSetTotals task_id) st)
        (mkConfig (chunk :: rest) (AtSubmit task_id)
                  (set_totals task_id (Py.len chunk) st))
  (** lines 82-84 *)
  | step_submit chunk rest task_id st :
      dispatch_step
        (mkConfig (chunk :: rest) (AtSubmit task_id) st)
        (mkConfig rest AtAddTask (submit task_id chunk st))
  (** [shared_progress[task_id] += 1] in the worker of a submitted job *)
  | step_worker chunks pc st j sp' :
      In j (jobs st) ->
      increment (job_task_id j) (shared_progress st) = Return sp' ->
      dispatch_step (mkConfig chunks pc st)
                    (mkConfig chunks pc (worker_write sp' st)).

(** Any number of steps. *)
Definition dispatch_steps : Config -> Config -> Prop := rtc dispatch_step.

(** What the main process alone has written when it is at [pc] in the
    iteration for [chunk], the earlier chunks having taken [st] to
    where it is. *)
Definition written (pc : Pc) (chunk : list A) (st : State A) : State A :=
  match pc with
  | AtAddTask => st
  | AtSetProgress _ => snd (add_task st)
  | AtSetTotals task_id => set_shared_progress task_id 0 (snd (add_task st))
  | AtSubmit task_id =>
      set_totals task_id (Py.len chunk)
        (set_shared_progress task_id 0 (snd (add_task st)))
  end.

(** [st] is [main] up to the increments of the workers: the same
    everywhere but in the dictionary, which has the same keys, and the
    same values at the keys that are no job's task id. *)
Record up_to_workers (main st : State A) : Prop := {
  utw_next_task_id : next_task_id st = next_task_id main;
  utw_display : display st = display main;
  utw_totals : totals st = totals main;
  utw_jobs : jobs st = jobs main;
  utw_max_workers : max_workers st = max_workers main;
  utw_keys :
    forall k, is_Some (shared_progress st !! k)
              <-> is_Some (shared_progress main !! k);
  utw_others :
    forall k, (forall j, In j (jobs st) -> job_task_id j <> k) ->
              shared_progress st !! k = shared_progress main !! k;
}.

(** What holds of every configuration the loop on [chunks] reaches
    from [st0]: some chunks are dispatched, the others are still to do,
    and the state is what the main process has written, up to the
    workers. *)
Definition dispatching (chunks : list (list A)) (st0 : State A)
    (cfg : Config) : Prop :=
  exists dispatched_chunks,
    chunks = dispatched_chunks ++ cfg_todo cfg /\
    match cfg_pc cfg with
    | AtAddTask => True
    | AtSetProgress task_id | AtSetTotals task_id | AtSubmit task_id =>
        task_id = next_task_id (dispatch dispatched_chunks st0) /\
        cfg_todo cfg <> []
    end /\
    up_to_workers
      (written (cfg_pc cfg) (hd [] (cfg_todo cfg))
               (dispatch dispatched_chunks st0))
      (cfg_state cfg).

(** *** The polling loop *)

(** What the main process observes in one iteration of the loop: the
    items of [shared_progress] when line 90 reads them, and
    [job.done()] of the job at each index when line 94 asks. *)
Record Obs : Type := mkObs {
  obs_items : gmap Z Z;
  obs_done : nat -> bool;
}.

(** Lines 90-92, on the items read. *)
Fixpoint render_items (items : list (Z * Z)) (n_done : Z) (st : State A)
  : State A * result Z :=
  match items with
  | [] => (st, Return n_done)
  | (task_id, latest) :: items' =>
      let n_done := n_done + latest in
      match totals st !! task_id with
      | None => (st, Raise (KeyError task_id))
      | Some total => render_items items' n_done (update task_id latest total st)
      end
  end.

(** [sum(job.done() for job in jobs)] *)
Definition count_done (o : Obs) (js : list (Job A)) : Z :=
  Py.sum (map (fun i => if obs_done o i then 1 else 0) (seq 0 (length js))).

(** The manager's dictionary as the main process last read it. *)
Definition read_shared (o : Obs) (st : State A) : State A :=
  mkState (next_task_id st) (display st) (obs_items o) (totals st) (jobs st)
          (max_workers st).

(** Lines 89-94: one iteration; returns the new [remaining]. *)
Definition poll_iter (task_id_all n : Z) (o : Obs) (st : State A)
  : State A * result Z :=
  let st := read_shared o st in
  match render_items (map_to_list (shared_progress st)) 0 st with
  | (st, Raise e) => (st, Raise e)
  | (st, Return n_done) =>
      let st := update task_id_all n_done n st in
      (st, Return (Py.len (jobs st) - count_done o (jobs st)))
  end.

(** Lines 87-94: [while remaining: ...], one observation per
    iteration.  [Return true]: the loop has exited; [Return false]:
    the observations ended while jobs were still running. *)
Fixpoint poll_loop (task_id_all n : Z) (sched : list Obs) (remaining : Z)
    (st : State A) : State A * result bool :=
  if remaining =? 0 then (st, Return true)
  else
    match sched with
    | [] => (st, Return false)
    | o :: sched' =>
        match poll_iter task_id_all n o st with
        | (st, Raise e) => (st, Raise e)
        | (st, Return remaining) => poll_loop task_id_all n sched' remaining st
        end
    end.

(** [sum(shared_progress.values())], the [n_done] of a full pass. *)
Definition sum_items (items : gmap Z Z) : Z :=
  Py.sum (map snd (map_to_list items)).

(** The observations workers can produce while they run
    [delegated_task] on the jobs [js]: the dictionary changes by their
    increments only, a job never shows more increments than its task
    performs, and a job seen done stays done and has performed all of
    them before the next read.  [sp] is the dictionary at the previous
    read and [was_done] the previous answers of [job.done()]. *)
Fixpoint realisable (delegated_task : Task) (js : list (Job A))
    (sp : gmap Z Z) (was_done : nat -> bool) (sched : list Obs) : Prop :=
  match sched with
  | [] => True
  | o :: sched' =>
      worker_steps js sp (obs_items o) /\
      (forall i j, nth_error js i = Some j ->
         let n := increments (delegated_task (job_task_id j) (job_data j)) in
         (forall v, obs_items o !! job_task_id j = Some v -> v <= n) /\
         (was_done i = true ->
            obs_done o i = true /\ obs_items o !! job_task_id j = Some n)) /\
      realisable delegated_task js (obs_items o) (obs_done o) sched'
  end.

(** *** The results *)

(** [job.result()]: what the task returned, or its exception. *)
Definition job_result (delegated_task : Task) (j : Job A) : result R :=
  returned (delegated_task (job_task_id j) (job_data j)).

(** Line 97: [[job.result() for job in jobs]] *)
Fixpoint collect (delegated_task : Task) (js : list (Job A))
  : result (list R) :=
  match js with
  | [] => Return []
  | j :: js' =>
      r ← job_result delegated_task j;
      rs ← collect delegated_task js';
      Return (r :: rs)
  end.

(** *** [pretty_process] *)

(** How a call ends: it returned or raised, or it is still polling
    when the observations end. *)
Inductive Outcome : Type :=
  | Finished (r : result (list R))
  | Polling.

(** Lines 69-77 when the executor is created: the state in which the
    dispatch loop is reached, and [task_id_all].  [Progress] and
    [Manager] are library objects; entering them is taken to succeed. *)
Definition start (num_workers : Z) : Z * State A :=
  let '(task_id_all, st) := add_task new_run in
  (task_id_all, with_pool num_workers st).

(** Lines 69-97, for the observations [sched] of the polling loop. *)
Definition pretty_process (globals : gmap string Z) (delegated_task : Task)
    (data : list A) (num_workers : Z) (sched : list Obs)
  : State A * Outcome :=
  let '(task_id_all, st) := add_task new_run in
  match open_pool num_workers st with
  | Raise e => (st, Finished (Raise e))
  | Return st =>
      match (count ← load_global globals "num_cpus"; _chunked data count) with
      | Raise e => (st, Finished (Raise e))
      | Return chunks =>
          let st := dispatch chunks st in
          match poll_loop task_id_all (Py.len data) sched (Py.len (jobs st)) st
          with
          | (st, Raise e) => (st, Finished (Raise e))
          | (st, Return false) => (st, Polling)
          | (st, Return true) =>
              (st, Finished (collect delegated_task (jobs st)))
          end
      end
  end.

End Run.

Arguments TaskRun : clear implicits.
Arguments Task : clear implicits.
Arguments Outcome : clear implicits.
Arguments Config : clear implicits.

(** [__long_task], lines 101-106: one increment per item, then [True]. *)
Definition __long_task {A : Type} : Task A bool :=
  fun task_id data => mkTaskRun (Py.len data) (Return true).


(** [__long_task] statement by statement (lines 103-106), as the worker
    runs it on the shared dictionary [sp]: one [+= 1] per item, then
    [True]; a failing [+= 1] ends the task with its exception. *)
Fixpoint long_task_run {A : Type} (task_id : Z) (data : list A)
    (sp : gmap Z Z) : gmap Z Z * result bool :=
  match data with
  | [] => (sp, Return true)
  | _val :: data' =>
      match increment task_id sp with
      | Raise e => (sp, Raise e)
      | Return sp' => long_task_run task_id data' sp'
      end
  end.

(** * Properties *)

(** ** Arithmetic of the chunk size *)

Lemma float_overflow_ge : 2 <= Py.float_overflow.
Proof. apply Z.leb_le. vm_compute. reflexivity. Qed.

Lemma truediv_ceil (a b : Z) :
  0 < b -> Z.abs a < Py.float_overflow * b ->
  exists q, Py.truediv a b = Return q /\ Py.ceil q = - ((- a) / b).
Proof.
  intros Hb Hfin. unfold Py.truediv.
  destruct (Z.eqb_spec b 0) as [->|_]; [lia|].
  destruct (Z.leb_spec (Py.float_overflow * Z.abs b) (Z.abs a)); [lia|].
  eexists; split; [reflexivity|].
  destruct b as [|p|p]; try lia.
  unfold Py.ceil, Qceiling, Qfloor, Qdiv, Qinv, Qmult, Qopp, inject_Z; simpl.
  rewrite Z.mul_1_r. reflexivity.
Qed.

Lemma ceil_rem (r n : Z) :
  0 <= r <= n -> 0 < n ->
  - ((- r) / n) = if r =? 0 then 0 else 1.
Proof.
  intros Hr Hn. destruct (Z.eqb_spec r 0) as [->|Hne].
  - reflexivity.
  - assert ((- r) / n = -1) as ->; [|reflexivity].
    symmetry. apply (Z.div_unique (- r) n (-1) (n - r)); lia.
Qed.

Lemma chunk_size_ceil_div (n w : Z) :
  0 < n -> 0 < w ->
  n / w + (if n mod w =? 0 then 0 else 1) = ceil_div n w.
Proof.
  intros Hn Hw. unfold ceil_div.
  pose proof (Z.div_mod n w ltac:(lia)) as Hdm.
  pose proof (Z.mod_pos_bound n w Hw) as Hb.
  destruct (Z.eqb_spec (n mod w) 0) as [H0|Hne].
  - rewrite Z.add_0_r.
    apply (Z.div_unique (n + w - 1) w (n / w) (w - 1)); lia.
  - apply (Z.div_unique (n + w - 1) w (n / w + 1) (n mod w - 1)); lia.
Qed.

Lemma ceil_div_bounds (n w : Z) :
  0 < n -> 0 < w ->
  1 <= ceil_div n w /\ n <= ceil_div n w * w /\ (ceil_div n w - 1) * w < n.
Proof.
  intros Hn Hw. unfold ceil_div.
  pose proof (Z.div_mod (n + w - 1) w ltac:(lia)) as Hdm.
  pose proof (Z.mod_pos_bound (n + w - 1) w Hw) as Hb.
  nia.
Qed.

(** ** The chunker on a non-empty list and a positive count *)

Lemma slice_take_drop {A : Type} (l : list A) (lo hi : Z) :
  0 <= lo <= hi ->
  Py.slice l lo hi = take (Z.to_nat (hi - lo)) (drop (Z.to_nat lo) l).
Proof.
  intros H. unfold Py.slice, Py.clamp, Py.len.
  destruct (Z.ltb_spec lo 0); [lia|].
  destruct (Z.ltb_spec hi 0); [lia|].
  destruct (Z.le_gt_cases (Z.of_nat (length l)) lo) as [Hge|Hlt].
  - rewrite !drop_ge by lia. by rewrite !take_nil.
  - rewrite (Z.min_l lo) by lia.
    destruct (Z.le_gt_cases hi (Z.of_nat (length l))) as [Hhi|Hhi].
    + by rewrite (Z.min_l hi) by lia.
    + rewrite (Z.min_r hi) by lia.
      rewrite !take_ge; [done| |]; rewrite length_drop; lia.
Qed.

(** The chunks of [l] of size [c], [k] of them. *)
Lemma chunked_eq {A : Type} (data : list A) (count : Z) :
  data <> [] -> 1 <= count ->
  let c := ceil_div (Py.len data) count in
  let k := (Py.len data - 1) / c + 1 in
  _chunked data count =
    Return (map (fun i : nat => take (Z.to_nat c) (drop (i * Z.to_nat c) data))
                (seq 0 (Z.to_nat k))).
Proof.
  intros Hne Hc c k.
  assert (0 < Py.len data) as Hn.
  { unfold Py.len. destruct data; [done|]. simpl length. lia. }
  pose proof (ceil_div_bounds (Py.len data) count Hn ltac:(lia)) as (Hc1 & _ & _).
  fold c in Hc1.
  unfold _chunked, Py.floordiv, Py.mod_.
  destruct (Z.eqb_spec count 0) as [->|_]; [lia|].
  cbn [mbind result_bind].
  pose proof (Z.mod_pos_bound (Py.len data) count ltac:(lia)) as Hb.
  pose proof (Z.mod_le (Py.len data) count ltac:(lia) ltac:(lia)) as Hle.
  pose proof float_overflow_ge as Hfloat.
  destruct (truediv_ceil (Py.len data mod count) (Py.len data) Hn)
    as (q & Hq & Hceil); [nia|].
  rewrite Hq. cbn [mbind result_bind]. rewrite Hceil.
  rewrite ceil_rem by lia.
  rewrite chunk_size_ceil_div by lia. fold c.
  unfold Py.range, Py.range_len.
  destruct (Z.eqb_spec c 0) as [H0|_]; [lia|].
  destruct (Z.ltb_spec 0 c); [|lia].
  destruct (Z.ltb_spec 0 (Py.len data)); [|lia].
  cbn [mbind result_bind].
  rewrite Z.sub_0_r. fold k. f_equal.
  rewrite map_map. apply map_ext. intros i.
  rewrite slice_take_drop by lia.
  f_equal; [f_equal; lia|f_equal; lia].
Qed.

Lemma concat_chunks {A : Type} (l : list A) (c k : nat) :
  concat (map (fun i : nat => take c (drop (i * c) l)) (seq 0 k))
  = take (k * c) l.
Proof.
  induction k as [|k IH].
  - by rewrite take_0.
  - rewrite seq_S, map_app, concat_app, IH. simpl.
    rewrite app_nil_r, take_take_drop. f_equal. lia.
Qed.

Lemma chunks_cover (n w : Z) :
  0 < n -> 0 < w ->
  let c := ceil_div n w in
  let k := (n - 1) / c + 1 in
  1 <= k <= w /\ (k - 1) * c < n <= k * c.
Proof.
  intros Hn Hw c k.
  pose proof (ceil_div_bounds n w Hn Hw) as (Hc1 & Hup & Hlo). fold c in Hc1, Hup, Hlo.
  pose proof (Z.div_mod (n - 1) c ltac:(lia)) as Hdm.
  pose proof (Z.mod_pos_bound (n - 1) c ltac:(lia)) as Hb.
  assert (0 <= (n - 1) / c) by (apply Z.div_pos; lia).
  unfold k. repeat split; try nia.
Qed.

Lemma sum_sizes_concat {A : Type} (chunks : list (list A)) :
  Py.sum (sizes chunks) = Py.len (concat chunks).
Proof.
  unfold Py.len. induction chunks as [|ch chunks IH]; [done|].
  simpl. rewrite length_app, IH. unfold Py.len. lia.
Qed.

Lemma chunk_length {A : Type} (data : list A) (c i : nat) :
  length (take c (drop (i * c) data)) = (c `min` (length data - i * c))%nat.
Proof. by rewrite length_take, length_drop. Qed.

(** ** The chunker: the claims *)

(** C9: a list of 23 items chunked with count 4 gives exactly four
    chunks, of sizes 6, 6, 6 and 5 in that order. *)
Theorem chunked_23_4 {A : Type} (data : list A) :
  length data = 23%nat ->
  exists chunks,
    _chunked data 4 = Return chunks /\ sizes chunks = [6; 6; 6; 5].
Proof.
  intros Hlen.
  assert (data <> []) as Hne by (intros ->; discriminate).
  eexists; split; [exact (chunked_eq data 4 Hne ltac:(lia))|].
  unfold Py.len. rewrite Hlen.
  change (ceil_div (Z.of_nat 23) 4) with 6.
  change ((Z.of_nat 23 - 1) / 6 + 1) with 4.
  change (Z.to_nat 4) with 4%nat. change (Z.to_nat 6) with 6%nat.
  unfold sizes, Py.len. cbn [seq map].
  rewrite !chunk_length, Hlen. reflexivity.
Qed.

Lemma chunked_23_4_witness :
  length (seq 0 23) = 23%nat /\
  exists chunks,
    _chunked (seq 0 23) 4 = Return chunks /\ sizes chunks = [6; 6; 6; 5].
Proof. split; [reflexivity|]. apply (chunked_23_4 (seq 0 23)). reflexivity. Defined.

(** C8: on a non-empty list and a count [W >= 1] the chunker returns at
    most [W] chunks, and when [W] exceeds the number of items it returns
    one chunk of size 1 per item. *)
Theorem chunked_at_most_count {A : Type} (data : list A) (count : Z) :
  data <> [] -> 1 <= count ->
  exists chunks,
    _chunked data count = Return chunks /\
    Py.len chunks <= count /\
    (Py.len data < count ->
       Py.len chunks = Py.len data /\ Forall (fun ch => Py.len ch = 1) chunks).
Proof.
  intros Hne Hc.
  assert (0 < Py.len data) as Hn.
  { unfold Py.len. destruct data; [done|]. simpl length. lia. }
  eexists; split; [exact (chunked_eq data count Hne Hc)|].
  pose proof (chunks_cover (Py.len data) count Hn ltac:(lia)) as (Hk & Hcov).
  cbv zeta in Hk, Hcov.
  set (c := ceil_div (Py.len data) count) in *.
  set (k := (Py.len data - 1) / c + 1) in *.
  unfold Py.len at 1. rewrite length_map, length_seq.
  split; [lia|].
  intros Hlt.
  assert (c = 1) as Hc1.
  { unfold c, ceil_div. symmetry.
    apply (Z.div_unique _ count 1 (Py.len data - 1)); lia. }
  assert (k = Py.len data) as Hk1.
  { unfold k. rewrite Hc1, Z.div_1_r. lia. }
  split; [unfold Py.len at 1; rewrite length_map, length_seq; lia|].
  apply List.Forall_forall. intros ch Hin.
  apply in_map_iff in Hin as (i & <- & Hi). apply in_seq in Hi.
  unfold Py.len at 1. rewrite chunk_length, Hc1.
  unfold Py.len in Hk1. lia.
Qed.

Lemma chunked_at_most_count_witness :
  exists chunks,
    _chunked (seq 0 3) 5 = Return chunks /\
    Py.len chunks <= 5 /\
    (Py.len (seq 0 3) < 5 ->
       Py.len chunks = Py.len (seq 0 3) /\ Forall (fun ch => Py.len ch = 1) chunks).
Proof. apply (chunked_at_most_count (seq 0 3) 5); [discriminate|lia]. Defined.

(** C2, as the code has it: on a non-empty list and a count [W >= 1] the
    chunker returns chunks whose sizes add up to the number of items;
    every chunk but the last has size [ceil(N / W)], and the last has
    between 1 and [ceil(N / W)] items. *)
Theorem chunked_sizes {A : Type} (data : list A) (count : Z) :
  data <> [] -> 1 <= count ->
  exists chunks,
    _chunked data count = Return chunks /\
    Py.sum (sizes chunks) = Py.len data /\
    forall (i : nat) ch, nth_error chunks i = Some ch ->
      1 <= Py.len ch <= ceil_div (Py.len data) count /\
      (Z.of_nat i + 1 < Py.len chunks ->
         Py.len ch = ceil_div (Py.len data) count).
Proof.
  intros Hne Hc.
  assert (0 < Py.len data) as Hn.
  { unfold Py.len. destruct data; [done|]. simpl length. lia. }
  eexists; split; [exact (chunked_eq data count Hne Hc)|].
  pose proof (chunks_cover (Py.len data) count Hn ltac:(lia)) as (Hk & Hcov).
  pose proof (ceil_div_bounds (Py.len data) count Hn ltac:(lia)) as (Hc1 & _).
  cbv zeta in Hk, Hcov.
  set (c := ceil_div (Py.len data) count) in *.
  set (k := (Py.len data - 1) / c + 1) in *.
  split.
  - rewrite sum_sizes_concat, concat_chunks. unfold Py.len.
    rewrite take_ge; [done|]. unfold Py.len in Hcov. nia.
  - intros i ch Hi.
    rewrite nth_error_map in Hi.
    destruct (nth_error (seq 0 (Z.to_nat k)) i) as [i'|] eqn:Hseq; [|done].
    simpl in Hi. injection Hi as <-.
    pose proof (nth_error_Some (seq 0 (Z.to_nat k)) i) as Hlt.
    rewrite Hseq, length_seq in Hlt.
    assert (i < Z.to_nat k)%nat as Hik by (apply Hlt; done).
    apply nth_error_nth with (d := 0%nat) in Hseq.
    rewrite seq_nth in Hseq by done. simpl in Hseq. subst i'.
    clearbody c k. unfold Py.len in *.
    rewrite !chunk_length, length_map, length_seq.
    assert (Z.of_nat (i * Z.to_nat c) = Z.of_nat i * c) as Hic
      by (rewrite Nat2Z.inj_mul; lia).
    assert (Z.of_nat i * c <= (k - 1) * c) as Hle by nia.
    split; [|intros Hlast].
    + lia.
    + assert ((Z.of_nat i + 1) * c <= (k - 1) * c) by nia.
      lia.
Qed.

Lemma chunked_sizes_witness :
  exists chunks,
    _chunked (seq 0 10) 4 = Return chunks /\
    Py.sum (sizes chunks) = Py.len (seq 0 10) /\
    forall (i : nat) ch, nth_error chunks i = Some ch ->
      1 <= Py.len ch <= ceil_div (Py.len (seq 0 10)) 4 /\
      (Z.of_nat i + 1 < Py.len chunks ->
         Py.len ch = ceil_div (Py.len (seq 0 10)) 4).
Proof. apply (chunked_sizes (seq 0 10) 4); [discriminate|lia]. Defined.

(** C2, as the claim states it, fails: ten items chunked with count 4
    come in chunks of sizes 3, 3, 3 and 1. *)
Lemma chunked_10_4_unbalanced :
  exists chunks,
    _chunked (seq 0 10) 4 = Return chunks /\
    sizes chunks = [3; 3; 3; 1] /\
    ~ balanced (sizes chunks).
Proof.
  exists [[0; 1; 2]; [3; 4; 5]; [6; 7; 8]; [9]]%nat.
  split; [reflexivity|]. split; [reflexivity|].
  intros Hbal.
  assert (3 - 1 <= 1) as Habs by (apply Hbal; simpl; auto).
  lia.
Qed.

(** C3: on a non-empty list and a count [W >= 1] the chunks, put
    together in order, are the input list; on the empty list the chunker
    raises [ZeroDivisionError] instead of returning chunks. *)
Theorem chunked_concat {A : Type} (data : list A) (count : Z) :
  1 <= count ->
  match data with
  | [] => _chunked data count = Raise ZeroDivisionError
  | _ :: _ =>
      exists chunks, _chunked data count = Return chunks /\ concat chunks = data
  end.
Proof.
  intros Hc. destruct data as [|x data].
  - unfold _chunked, Py.floordiv, Py.mod_.
    destruct (Z.eqb_spec count 0); [lia|]. reflexivity.
  - set (l := x :: data).
    assert (l <> []) as Hne by done.
    assert (0 < Py.len l) as Hn by (unfold Py.len; simpl length; lia).
    eexists; split; [exact (chunked_eq l count Hne Hc)|].
    pose proof (chunks_cover (Py.len l) count Hn ltac:(lia)) as (Hk & Hcov).
    pose proof (ceil_div_bounds (Py.len l) count Hn ltac:(lia)) as (Hc1 & _).
    cbv zeta in Hk, Hcov. rewrite concat_chunks.
    apply take_ge. unfold Py.len in *. nia.
Qed.

Lemma chunked_concat_witness :
  (exists chunks, _chunked (seq 0 23) 4 = Return chunks
                  /\ concat chunks = seq 0 23) /\
  _chunked (@nil nat) 1 = Raise ZeroDivisionError.
Proof.
  split.
  - apply (chunked_concat (seq 0 23) 4). lia.
  - apply (chunked_concat (@nil nat) 1). lia.
Defined.

(** ** Global names *)


Lemma load_num_cpus_main (cpu_count : option Z) :
  load_global (module_globals "__main__" cpu_count) "num_cpus"
  = Return (default 4 cpu_count).
Proof.
  unfold module_globals, load_global. simpl String.eqb. cbv iota zeta.
  destruct cpu_count; simpl; by rewrite lookup_insert_eq.
Qed.

Lemma chunked_nil {A : Type} (count : Z) :
  _chunked (@nil A) count = Raise ZeroDivisionError.
Proof.
  unfold _chunked, Py.floordiv, Py.mod_.
  destruct (Z.eqb_spec count 0); reflexivity.
Qed.

Lemma chunked_zero {A : Type} (data : list A) :
  _chunked data 0 = Raise ZeroDivisionError.
Proof. reflexivity. Qed.

Lemma start_jobs {A : Type} (num_workers : Z) :
  jobs (snd (start (A := A) num_workers)) = [].
Proof. reflexivity. Qed.

(** ** Calls that fail before the dispatch loop *)

(** Without a positive [num_workers] the call ends on line 77. *)
Lemma pretty_process_no_pool {A R : Type} (globals : gmap string Z)
    (delegated_task : Task A R) (data : list A) (num_workers : Z)
    (sched : list Obs) :
  num_workers <= 0 ->
  pretty_process globals delegated_task data num_workers sched
  = (snd (add_task new_run), Finished (Raise ValueError)).
Proof.
  intros Hnw. unfold pretty_process, open_pool. cbn [add_task].
  destruct (Z.leb_spec num_workers 0); [reflexivity|lia].
Qed.

(** With a positive [num_workers] the call goes on from [start]. *)
Lemma pretty_process_opened {A R : Type} (globals : gmap string Z)
    (delegated_task : Task A R) (data : list A) (num_workers : Z)
    (sched : list Obs) :
  1 <= num_workers ->
  pretty_process globals delegated_task data num_workers sched
  = let '(task_id_all, st) := start num_workers in
    match (count ← load_global globals "num_cpus"; _chunked data count) with
    | Raise e => (st, Finished (Raise e))
    | Return chunks =>
        let st := dispatch chunks st in
        match poll_loop task_id_all (Py.len data) sched (Py.len (jobs st)) st
        with
        | (st, Raise e) => (st, Finished (Raise e))
        | (st, Return false) => (st, Polling)
        | (st, Return true) =>
            (st, Finished (collect delegated_task (jobs st)))
        end
    end.
Proof.
  intros Hnw. unfold pretty_process, open_pool, start. cbn [add_task].
  destruct (Z.leb_spec num_workers 0); [lia|reflexivity].
Qed.

(** C6: on the empty list the chunker raises [ZeroDivisionError] for
    every count, so a run of the module as a script on no data submits
    no job and raises instead of returning an empty result list: the
    chunker's [ZeroDivisionError] when the pool is created, the pool's
    [ValueError] when [num_workers] is not positive. *)
Theorem chunked_empty_raises {A R : Type} (count : Z) (cpu_count : option Z)
    (delegated_task : Task A R) (num_workers : Z) (sched : list Obs) :
  _chunked (@nil A) count = Raise ZeroDivisionError /\
  exists st,
    pretty_process (module_globals "__main__" cpu_count) delegated_task []
                   num_workers sched
    = (st, Finished (Raise (if num_workers <=? 0 then ValueError
                            else ZeroDivisionError))) /\
    jobs st = [].
Proof.
  split; [apply chunked_nil|].
  destruct (Z.leb_spec num_workers 0).
  - rewrite pretty_process_no_pool by done. eexists; split; reflexivity.
  - rewrite pretty_process_opened by lia. unfold start. cbn [add_task].
    rewrite load_num_cpus_main. cbn [mbind result_bind].
    rewrite chunked_nil. eexists; split; reflexivity.
Qed.

(** C7, as the code has it: a call with a worker count that is not
    positive raises the [ValueError] of the executor's constructor on
    line 77, before the chunker runs and with no job submitted, whatever
    the global names and the data; the chunker does not check its count,
    and with count 0 it raises [ZeroDivisionError] at its first
    division. *)
Theorem nonpositive_workers_ValueError {A R : Type} (globals : gmap string Z)
    (delegated_task : Task A R) (data : list A) (num_workers : Z)
    (sched : list Obs) :
  num_workers <= 0 ->
  (exists st,
     pretty_process globals delegated_task data num_workers sched
     = (st, Finished (Raise ValueError)) /\
     jobs st = []) /\
  _chunked data 0 = Raise ZeroDivisionError.
Proof.
  intros Hnw. split; [|apply chunked_zero].
  rewrite pretty_process_no_pool by done. eexists; split; reflexivity.
Qed.

Lemma nonpositive_workers_ValueError_witness :
  (exists st,
     pretty_process (module_globals "__main__" (Some (-2)))
                    (__long_task (A := nat)) (seq 0 23) (-2) []
     = (st, Finished (Raise ValueError)) /\
     jobs st = []) /\
  _chunked (seq 0 23) 0 = Raise ZeroDivisionError.
Proof.
  apply (nonpositive_workers_ValueError (module_globals "__main__" (Some (-2)))
           (__long_task (A := nat)) (seq 0 23) (-2) []).
  lia.
Defined.

(** C7, as the claim states it, fails: the script's call with the
    worker count 0 raises [ValueError], not an [InvalidConfiguration];
    the chunker with count 0 raises [ZeroDivisionError], and with a
    negative count it returns (no chunks) instead of failing. *)
Lemma chunked_nonpositive_count_no_InvalidConfiguration :
  (exists st,
     pretty_process (module_globals "__main__" (Some 0))
                    (__long_task (A := nat)) [0%nat] 0 []
     = (st, Finished (Raise ValueError)) /\
     exn_class ValueError <> "InvalidConfiguration"%string) /\
  _chunked [0%nat] (-1) = Return [] /\
  ~ (exists e, _chunked [0%nat] (-1) = Raise e) /\
  ~ (exists e, _chunked [0%nat] 0 = Raise e
               /\ exn_class e = "InvalidConfiguration"%string).
Proof.
  split; [eexists; split; [reflexivity|discriminate]|].
  split; [reflexivity|]. split.
  - intros [e He]. discriminate He.
  - intros [e [He Hcl]]. injection He as <-. discriminate Hcl.
Qed.

(** ** The size of the pool is carried along, and nothing reads it *)

Section Pool.

Context {A R : Type}.
Implicit Types (st : State A) (nw : Z).






End Pool.




(** ** The dispatch loop *)

Section Dispatch.

Context {A : Type}.
Implicit Types (st : State A) (chunk : list A).

Lemma register_spec chunk st :
  let task_id := fst (register chunk st) in
  let st' := snd (register chunk st) in
  task_id = next_task_id st /\
  shared_progress st' !! task_id = Some 0 /\
  totals st' !! task_id = Some (Py.len chunk) /\
  jobs st' = jobs st /\
  dispatch_one st chunk = submit task_id chunk st'.
Proof.
  unfold register, dispatch_one; simpl.
  repeat split; by rewrite lookup_insert_eq.
Qed.

Lemma dispatched_start (num_workers : Z) :
  dispatched (snd (start (A := A) num_workers)).
Proof.
  split; simpl.
  - intros task_id [v Hv]. by rewrite lookup_empty in Hv.
  - intros task_id [v Hv]. by rewrite lookup_empty in Hv.
  - intros task_id [v Hv]. by rewrite lookup_empty in Hv.
  - intros j [].
Qed.

Lemma dispatched_one st chunk :
  dispatched st -> dispatched (dispatch_one st chunk).
Proof.
  intros [Hsp Htot Hkeys Hjobs]. unfold dispatch_one, register; simpl.
  split; simpl.
  - intros task_id [v Hv].
    destruct (decide (next_task_id st = task_id)) as [<-|Hne]; [lia|].
    rewrite lookup_insert_ne in Hv by done.
    specialize (Hsp task_id (ex_intro _ v Hv)). lia.
  - intros task_id [v Hv].
    destruct (decide (next_task_id st = task_id)) as [<-|Hne]; [lia|].
    rewrite lookup_insert_ne in Hv by done.
    specialize (Htot task_id (ex_intro _ v Hv)). lia.
  - intros task_id [v Hv].
    destruct (decide (next_task_id st = task_id)) as [<-|Hne].
    + rewrite lookup_insert_eq. by eexists.
    + rewrite lookup_insert_ne in Hv by done.
      rewrite lookup_insert_ne by done. apply Hkeys. by eexists.
  - intros j Hin. apply in_app_or in Hin as [Hin|[<-|[]]].
    + destruct (Hjobs j Hin) as [Hj0 Hjt].
      assert (job_task_id j < next_task_id st) as Hlt
        by (apply Hsp; by eexists).
      rewrite !lookup_insert_ne by lia. done.
    + simpl. by rewrite !lookup_insert_eq.
Qed.

Lemma dispatched_dispatch (chunks : list (list A)) st :
  dispatched st -> dispatched (dispatch chunks st).
Proof.
  revert st. induction chunks as [|chunk chunks IH]; intros st Hst; [done|].
  simpl. apply IH. by apply dispatched_one.
Qed.


(** The workers' increments keep the keys of the dictionary. *)
Lemma increment_keys task_id (sp sp' : gmap Z Z) :
  increment task_id sp = Return sp' ->
  forall k, is_Some (sp' !! k) <-> is_Some (sp !! k).
Proof.
  unfold increment. destruct (sp !! task_id) as [v|] eqn:Hv; [|done].
  intros [= <-] k. destruct (decide (task_id = k)) as [<-|Hne].
  - rewrite lookup_insert_eq, Hv. split; by eexists.
  - by rewrite lookup_insert_ne.
Qed.

Lemma worker_steps_keys (js : list (Job A)) (sp sp' : gmap Z Z) :
  worker_steps js sp sp' ->
  forall k, is_Some (sp' !! k) <-> is_Some (sp !! k).
Proof.
  induction 1 as [sp|sp j sp' sp'' Hin Hincr Hsteps IH]; intros k; [done|].
  rewrite IH. exact (increment_keys _ _ _ Hincr k).
Qed.

End Dispatch.

(** ** The polling loop *)

Section Polling.

Context {A : Type}.
Implicit Types (st : State A) (o : Obs).

(** A pass over the items touches the display only. *)
Lemma render_items_frame items n st :
  let st' := fst (render_items items n st) in
  totals st' = totals st /\ jobs st' = jobs st /\
  shared_progress st' = shared_progress st.
Proof.
  revert n st. induction items as [|[task_id latest] items IH]; intros n st.
  - done.
  - simpl. destruct (totals st !! task_id) as [total|]; [|done].
    apply (IH (n + latest) (update task_id latest total st)).
Qed.

(** A pass that ends without [KeyError]: each item is displayed
    against its total, and [n_done] is the sum of the items. *)
Lemma render_items_Return items n st st' m :
  render_items items n st = (st', Return m) ->
  NoDup (map fst items) ->
  m = n + Py.sum (map snd items) /\
  (forall task_id latest, In (task_id, latest) items ->
     exists total, totals st !! task_id = Some total /\
                   display st' !! task_id = Some (latest, total)) /\
  (forall task_id, ~ In task_id (map fst items) ->
     display st' !! task_id = display st !! task_id).
Proof.
  revert n st. induction items as [|[t l] items IH]; intros n st Hr Hnd.
  - simpl in Hr. injection Hr as <- <-. simpl. split; [lia|]. split; [|done].
    intros ? ? [].
  - simpl in Hr. destruct (totals st !! t) as [total|] eqn:Ht; [|done].
    apply NoDup_cons in Hnd as [Hnotin Hnd]. rewrite list_elem_of_In in Hnotin.
    destruct (IH _ _ Hr Hnd) as (Hm & Hin & Hout).
    split; [simpl; lia|]. split.
    + intros task_id latest [[= <- <-]|Hitem].
      * exists total. split; [done|].
        rewrite Hout by done. simpl. by rewrite lookup_insert_eq.
      * destruct (Hin _ _ Hitem) as (total' & Htot & Hd).
        exists total'. split; done.
    + intros task_id Hnot. simpl in Hnot.
      rewrite Hout by tauto. simpl.
      rewrite lookup_insert_ne; [done|]. intros ->. tauto.
Qed.

(** When every item has a total, the pass does not raise. *)
Lemma render_items_total items n st :
  (forall task_id latest, In (task_id, latest) items ->
     is_Some (totals st !! task_id)) ->
  exists st' m, render_items items n st = (st', Return m).
Proof.
  revert n st. induction items as [|[t l] items IH]; intros n st Hkeys.
  - by eexists _, _.
  - simpl. destruct (Hkeys t l (or_introl eq_refl)) as [total ->].
    apply IH. intros task_id latest Hin. simpl.
    apply (Hkeys task_id latest). by right.
Qed.

Lemma in_map_to_list (m : gmap Z Z) task_id latest :
  In (task_id, latest) (map_to_list m) <-> m !! task_id = Some latest.
Proof. rewrite <- list_elem_of_In. apply elem_of_map_to_list. Qed.

Lemma poll_iter_frame task_id_all n o st :
  let st' := fst (poll_iter task_id_all n o st) in
  totals st' = totals st /\ jobs st' = jobs st /\
  shared_progress st' = obs_items o.
Proof.
  unfold poll_iter.
  pose proof (render_items_frame (map_to_list (shared_progress (read_shared o st)))
                0 (read_shared o st)) as Hf.
  destruct (render_items _ 0 (read_shared o st)) as [st1 [n_done|e]];
    simpl in *; done.
Qed.

(** An iteration that ends without [KeyError]. *)
Lemma poll_iter_Return task_id_all n o st st' remaining :
  poll_iter task_id_all n o st = (st', Return remaining) ->
  remaining = Py.len (jobs st) - count_done o (jobs st) /\
  display st' !! task_id_all = Some (sum_items (obs_items o), n) /\
  (forall task_id latest,
     task_id <> task_id_all -> obs_items o !! task_id = Some latest ->
     exists total, totals st !! task_id = Some total /\
                   display st' !! task_id = Some (latest, total)).
Proof.
  unfold poll_iter. intros Hiter.
  pose proof (render_items_frame (map_to_list (shared_progress (read_shared o st)))
                0 (read_shared o st)) as (_ & Hjobs & _).
  destruct (render_items _ 0 (read_shared o st)) as [st1 [n_done|e]] eqn:Hr;
    [|done].
  injection Hiter as <- <-. simpl in Hjobs.
  apply render_items_Return in Hr as (Hm & Hin & _);
    [|apply NoDup_fst_map_to_list].
  simpl in *. rewrite Hjobs. split; [done|]. split.
  - rewrite lookup_insert_eq. unfold sum_items. by rewrite Hm.
  - intros task_id latest Hne Hl. apply in_map_to_list in Hl.
    destruct (Hin _ _ Hl) as (total & Htot & Hd).
    exists total. split; [done|]. by rewrite lookup_insert_ne.
Qed.

End Polling.

Section PollingLoop.

Context {A : Type}.
Implicit Types (st : State A) (o : Obs) (sched : list Obs).

Lemma poll_loop_zero task_id_all n sched st :
  poll_loop task_id_all n sched 0 st = (st, Return true).
Proof. destruct sched; reflexivity. Qed.

Lemma poll_loop_exit_from task_id_all n sched remaining st st' :
  poll_loop task_id_all n sched remaining st = (st', Return true) ->
  remaining <> 0 ->
  exists pre o post,
    sched = pre ++ o :: post /\
    (forall o', In o' pre -> count_done o' (jobs st) <> Py.len (jobs st)) /\
    count_done o (jobs st) = Py.len (jobs st) /\
    (forall post',
       poll_loop task_id_all n (pre ++ o :: post') remaining st
       = (st', Return true)) /\
    shared_progress st' = obs_items o /\
    display st' !! task_id_all = Some (sum_items (obs_items o), n) /\
    (forall task_id latest,
       task_id <> task_id_all -> obs_items o !! task_id = Some latest ->
       exists total, totals st !! task_id = Some total /\
                     display st' !! task_id = Some (latest, total)).
Proof.
  revert remaining st.
  induction sched as [|o sched IH]; intros remaining st Hloop Hrem.
  - simpl in Hloop. destruct (Z.eqb_spec remaining 0); [lia|done].
  - simpl in Hloop. destruct (Z.eqb_spec remaining 0) as [|_]; [lia|].
    pose proof (poll_iter_frame task_id_all n o st) as (Htot & Hjobs & Hsp).
    destruct (poll_iter task_id_all n o st) as [st1 [remaining1|e]] eqn:Hiter;
      [|done].
    simpl in Htot, Hjobs, Hsp.
    destruct (poll_iter_Return _ _ _ _ _ _ Hiter) as (Hrem1 & Hall & Hchunks).
    destruct (Z.eq_dec remaining1 0) as [->|Hne].
    + rewrite poll_loop_zero in Hloop. injection Hloop as <-.
      exists [], o, sched. split; [done|]. split; [intros ? []|].
      split; [lia|]. split; [|done].
      intros post'. simpl. destruct (Z.eqb_spec remaining 0); [lia|].
      rewrite Hiter. apply poll_loop_zero.
    + destruct (IH _ _ Hloop Hne)
        as (pre & o1 & post & -> & Hpre & Hdone & Hpost & Hsp' & Hall' & Hch').
      rewrite Hjobs in Hpre, Hdone. rewrite Htot in Hch'.
      exists (o :: pre), o1, post. split; [done|]. split.
      { intros o' [<-|Hin]; [lia|by apply Hpre]. }
      split; [done|]. split; [|done].
      intros post'. simpl. destruct (Z.eqb_spec remaining 0); [lia|].
      rewrite Hiter. apply Hpost.
Qed.

Lemma jobs_len_nonzero (js : list (Job A)) : js <> [] -> Py.len js <> 0.
Proof. destruct js; [done|]. unfold Py.len. simpl length. lia. Qed.

End PollingLoop.

(** C4, as the claim states it, fails: the demo task on one item, with
    the worker's increment and return falling between the read of the
    dictionary and the completion check of the first iteration.  The
    loop exits and the call returns with the chunk's bar at 0 of 1 and
    the overall bar at 0 of 1. *)
Lemma poll_exits_with_unread_increment :
  let sched := [mkObs {[1 := 0]} (fun _ => true)] in
  let st0 := dispatch [[0%nat]] (snd (start 1)) in
  realisable __long_task (jobs st0) (shared_progress st0) (fun _ => false) sched /\
  increments (__long_task 1 [0%nat]) = 1 /\
  exists st,
    pretty_process (module_globals "__main__" (Some 1)) __long_task [0%nat] 1 sched
    = (st, Finished (Return [true])) /\
    totals st !! 1 = Some 1 /\
    display st !! 1 = Some (0, 1) /\
    display st !! 0 = Some (0, 1).
Proof.
  cbv zeta. split; [|split; [reflexivity|]].
  - simpl. split; [apply worker_steps_refl|]. split; [|done].
    intros [|i] j Hj; simpl in Hj; [|by destruct i].
    injection Hj as <-. simpl. split; [|done].
    intros v Hv. rewrite lookup_singleton_eq in Hv. injection Hv as <-.
    unfold Py.len. simpl. lia.
  - eexists. split; [vm_compute; reflexivity|].
    split; [|split]; vm_compute; reflexivity.
Qed.

(** ** The results *)

(** C5: when the task of one job raises and the tasks of the others
    return, the collection of the results raises that exception; it
    returns no list, neither the results of the other jobs nor a slot
    for the failed one. *)
Theorem collect_raises_job_failure {A R : Type} (delegated_task : Task A R)
    (js : list (Job A)) (i : nat) (j : Job A) (e : Exn) :
  nth_error js i = Some j ->
  job_result delegated_task j = Raise e ->
  (forall i' j', i' <> i -> nth_error js i' = Some j' ->
                 is_Return (job_result delegated_task j')) ->
  collect delegated_task js = Raise e /\
  ~ is_Return (collect delegated_task js).
Proof.
  intros Hi He Hothers.
  assert (collect delegated_task js = Raise e) as Hc.
  { revert i Hi Hothers. induction js as [|j0 js IH]; intros i Hi Hothers.
    - by destruct i.
    - destruct i as [|i]; simpl in Hi.
      + injection Hi as ->. simpl. by rewrite He.
      + simpl. destruct (Hothers 0%nat j0 ltac:(lia) eq_refl) as [r ->].
        cbn [mbind result_bind].
        rewrite (IH i Hi); [done|].
        intros i' j' Hne Hj'. apply (Hothers (S i') j'); [lia|done]. }
  split; [done|]. intros [rs Hrs]. congruence.
Qed.

Lemma collect_raises_job_failure_witness :
  let task : Task nat bool :=
    fun task_id data =>
      if task_id =? 2 then mkTaskRun 0 (Raise (TaskError 1))
      else mkTaskRun (Py.len data) (Return true) in
  let js := jobs (dispatch [[0%nat]; [1%nat]; [2%nat]] (snd (start 3))) in
  collect task js = Raise (TaskError 1) /\ ~ is_Return (collect task js).
Proof.
  cbv zeta.
  apply (collect_raises_job_failure _ _ 1%nat (mkJob 2 [1%nat]) (TaskError 1)).
  - reflexivity.
  - reflexivity.
  - intros [|[|[|i']]] j' Hne Hj'; simpl in Hj'; try done.
    + injection Hj' as <-. by eexists.
    + injection Hj' as <-. by eexists.
    + by destruct i'.
Defined.

(** The same run as a whole: three items on three workers, the second
    task raising; the call raises the task's exception. *)
Example pretty_process_one_failure :
  let task : Task nat bool :=
    fun task_id data =>
      if task_id =? 2 then mkTaskRun 0 (Raise (TaskError 1))
      else mkTaskRun (Py.len data) (Return true) in
  snd (pretty_process (module_globals "__main__" (Some 3)) task (seq 0 3) 3
         [mkObs {[1 := 1; 2 := 0; 3 := 1]} (fun _ => true)])
  = Finished (Raise (TaskError 1)).
Proof. vm_compute. reflexivity. Qed.


(** * Further properties of the chunker *)

(** With count 1 a non-empty list comes back as one chunk, the list
    itself. *)
Theorem chunked_count_one {A : Type} (data : list A) :
  data <> [] -> _chunked data 1 = Return [data].
Proof.
  intros Hne. rewrite (chunked_eq data 1 Hne ltac:(lia)).
  assert (0 < Py.len data) as Hn.
  { unfold Py.len. destruct data; [done|]. simpl length. lia. }
  assert (ceil_div (Py.len data) 1 = Py.len data) as ->
    by (unfold ceil_div; rewrite Z.div_1_r; lia).
  assert ((Py.len data - 1) / Py.len data + 1 = 1) as ->
    by (rewrite Z.div_small; lia).
  simpl. rewrite drop_0, take_ge; [done|]. unfold Py.len. lia.
Qed.

Lemma chunked_count_one_witness :
  _chunked (seq 0 5) 1 = Return [seq 0 5].
Proof. apply (chunked_count_one (seq 0 5)). discriminate. Defined.

Lemma chunked_negative {A : Type} (data : list A) (count : Z) :
  data <> [] -> count < 0 ->
  _chunked data count
  = if Py.float_overflow * Py.len data <=? Z.abs (Py.len data mod count)
    then Raise OverflowError
    else Return [].
Proof.
  intros Hne Hc.
  assert (0 < Py.len data) as Hn.
  { unfold Py.len. destruct data; [done|]. simpl length. lia. }
  unfold _chunked, Py.floordiv, Py.mod_.
  destruct (Z.eqb_spec count 0) as [->|_]; [lia|].
  cbn [mbind result_bind].
  destruct (Z.leb_spec (Py.float_overflow * Py.len data)
              (Z.abs (Py.len data mod count))) as [Hover|Hfin].
  - unfold Py.truediv.
    destruct (Z.eqb_spec (Py.len data) 0); [lia|].
    rewrite (Z.abs_eq (Py.len data)) by lia.
    destruct (Z.leb_spec (Py.float_overflow * Py.len data)
                (Z.abs (Py.len data mod count))); [reflexivity|lia].
  - destruct (truediv_ceil (Py.len data mod count) (Py.len data) Hn Hfin)
      as (q & Hq & Hceil).
    rewrite Hq. cbn [mbind result_bind]. rewrite Hceil.
    pose proof (Z.div_mod (Py.len data) count ltac:(lia)) as Hdm.
    pose proof (Z.mod_neg_bound (Py.len data) count Hc) as Hb.
    assert (Py.len data / count <= -1) as Hq1 by nia.
    assert (0 <= (- (Py.len data mod count)) / Py.len data) as Hq2
      by (apply Z.div_pos; lia).
    set (chunk_size := Py.len data / count
                       + - ((- (Py.len data mod count)) / Py.len data)).
    assert (chunk_size <= -1) as Hneg by (unfold chunk_size; lia).
    unfold Py.range, Py.range_len.
    destruct (Z.eqb_spec chunk_size 0); [lia|].
    destruct (Z.ltb_spec 0 chunk_size); [lia|].
    destruct (Z.ltb_spec (Py.len data) 0); [lia|].
    reflexivity.
Qed.

(** With a negative count a non-empty list never gives a chunk: the
    chunk size is negative, so the range of start indices is empty and
    the chunker returns no chunks, unless the quotient of line 43 is
    beyond the floats and the division raises [OverflowError]; it is
    within them for every count from [-(2^1024 - 2^970)] on.  (The
    float quotient is at most 0 here, as the exact one, so the sign of
    the chunk size is the code's.) *)
Theorem chunked_negative_count {A : Type} (data : list A) (count : Z) :
  data <> [] -> count < 0 ->
  _chunked data count
  = (if Py.float_overflow * Py.len data <=? Z.abs (Py.len data mod count)
     then Raise OverflowError
     else Return []) /\
  (- Py.float_overflow <= count -> _chunked data count = Return []).
Proof.
  intros Hne Hc. split; [by apply chunked_negative|].
  intros Hsmall. rewrite chunked_negative by done.
  assert (0 < Py.len data) as Hn.
  { unfold Py.len. destruct data; [done|]. simpl length. lia. }
  pose proof (Z.mod_neg_bound (Py.len data) count Hc) as Hb.
  pose proof float_overflow_ge as Hfloat.
  destruct (Z.leb_spec (Py.float_overflow * Py.len data)
              (Z.abs (Py.len data mod count))); [nia|reflexivity].
Qed.

Lemma chunked_negative_count_witness :
  _chunked (seq 0 5) (-2) = Return [] /\
  _chunked [0%nat] (- 2 ^ 1024) = Raise OverflowError.
Proof.
  split.
  - apply (chunked_negative_count (seq 0 5) (-2)); [discriminate|lia|].
    apply Z.leb_le. vm_compute. reflexivity.
  - refine (eq_trans
              (proj1 (chunked_negative_count [0%nat] (- 2 ^ 1024) _ _)) _).
    + discriminate.
    + apply Z.ltb_lt. vm_compute. reflexivity.
    + vm_compute. reflexivity.
Defined.

(** The chunker raises in exactly two ways: [ZeroDivisionError] when
    the list is empty or the count is 0, and [OverflowError] when the
    list is not empty, the count is negative and the quotient of line
    43 is beyond the floats.  In particular the step of its range is
    never 0, and with a positive count it raises only on the empty
    list. *)
Theorem chunked_raises_iff {A : Type} (data : list A) (count : Z) (e : Exn) :
  _chunked data count = Raise e <->
  ((data = [] \/ count = 0) /\ e = ZeroDivisionError) \/
  (data <> [] /\ count < 0 /\
   Py.float_overflow * Py.len data <= Z.abs (Py.len data mod count) /\
   e = OverflowError).
Proof.
  split.
  - intros Hr. destruct data as [|x data].
    + rewrite chunked_nil in Hr. injection Hr as <-. left. split; [by left|done].
    + destruct (Z.lt_trichotomy count 0) as [Hneg|[->|Hpos]].
      * rewrite chunked_negative in Hr by done.
        destruct (Z.leb_spec (Py.float_overflow * Py.len (x :: data))
                    (Z.abs (Py.len (x :: data) mod count))); [|discriminate].
        injection Hr as <-. right. done.
      * rewrite chunked_zero in Hr. injection Hr as <-.
        left. split; [by right|done].
      * rewrite (chunked_eq (x :: data) count) in Hr by (done || lia).
        discriminate.
  - intros [[[->| ->] ->]|(Hne & Hneg & Hover & ->)];
      [apply chunked_nil|apply chunked_zero|].
    rewrite chunked_negative by done.
    destruct (Z.leb_spec (Py.float_overflow * Py.len data)
                (Z.abs (Py.len data mod count))); [reflexivity|lia].
Qed.

(** When the count divides the number of items, there are exactly
    [count] chunks, all of [N / count] items. *)
Theorem chunked_even {A : Type} (data : list A) (count : Z) :
  data <> [] -> 1 <= count -> Py.len data mod count = 0 ->
  exists chunks,
    _chunked data count = Return chunks /\
    Py.len chunks = count /\
    Forall (fun ch => Py.len ch = Py.len data / count) chunks.
Proof.
  intros Hne Hc Hmod.
  assert (0 < Py.len data) as Hn.
  { unfold Py.len. destruct data; [done|]. simpl length. lia. }
  eexists; split; [exact (chunked_eq data count Hne Hc)|].
  pose proof (chunk_size_ceil_div (Py.len data) count Hn ltac:(lia)) as Hcs.
  rewrite Hmod in Hcs. simpl in Hcs. rewrite Z.add_0_r in Hcs.
  pose proof (ceil_div_bounds (Py.len data) count Hn ltac:(lia)) as (Hc1 & _).
  pose proof (Z.div_mod (Py.len data) count ltac:(lia)) as Hdm.
  rewrite Hmod, Z.add_0_r in Hdm. rewrite <- Hcs in *.
  set (c := Py.len data / count) in *.
  assert ((Py.len data - 1) / c + 1 = count) as Hk.
  { assert ((Py.len data - 1) / c = count - 1) as ->; [|lia].
    symmetry. apply (Z.div_unique _ c (count - 1) (c - 1)); nia. }
  rewrite Hk. split.
  - unfold Py.len at 1. rewrite length_map, length_seq. lia.
  - apply List.Forall_forall. intros ch Hin.
    apply in_map_iff in Hin as (i & <- & Hi). apply in_seq in Hi.
    clearbody c. unfold Py.len in *. rewrite chunk_length.
    assert (Z.of_nat (i * Z.to_nat c) = Z.of_nat i * c) as Hic
      by (rewrite Nat2Z.inj_mul; lia).
    assert ((Z.of_nat i + 1) * c <= count * c) by nia.
    lia.
Qed.

Lemma chunked_even_witness :
  exists chunks,
    _chunked (seq 0 12) 4 = Return chunks /\
    Py.len chunks = 4 /\
    Forall (fun ch => Py.len ch = Py.len (seq 0 12) / 4) chunks.
Proof. apply (chunked_even (seq 0 12) 4); [discriminate|lia|reflexivity]. Defined.

(** The chunks are consecutive runs of the list: item [p] of chunk [i]
    is item [i * ceil(N / count) + p] of the input. *)
Theorem chunked_positions {A : Type} (data : list A) (count : Z) :
  data <> [] -> 1 <= count ->
  exists chunks,
    _chunked data count = Return chunks /\
    forall (i p : nat) ch x,
      nth_error chunks i = Some ch -> nth_error ch p = Some x ->
      nth_error data (i * Z.to_nat (ceil_div (Py.len data) count) + p) = Some x.
Proof.
  intros Hne Hc.
  eexists; split; [exact (chunked_eq data count Hne Hc)|].
  set (c := Z.to_nat (ceil_div (Py.len data) count)).
  intros i p ch x Hi Hp.
  rewrite nth_error_map in Hi.
  destruct (nth_error (seq 0 _) i) as [i'|] eqn:Hseq; [|done].
  simpl in Hi. injection Hi as <-.
  assert (i' = i) as ->.
  { pose proof (nth_error_Some (seq 0 (Z.to_nat
        ((Py.len data - 1) / ceil_div (Py.len data) count + 1))) i) as Hlt.
    rewrite Hseq, length_seq in Hlt.
    apply nth_error_nth with (d := 0%nat) in Hseq.
    rewrite seq_nth in Hseq by (apply Hlt; done). simpl in Hseq. done. }
  rewrite nth_error_firstn in Hp.
  destruct (p <? c)%nat; [|done].
  by rewrite nth_error_skipn in Hp.
Qed.

Lemma chunked_positions_witness :
  exists chunks,
    _chunked (seq 0 10) 4 = Return chunks /\
    forall (i p : nat) ch x,
      nth_error chunks i = Some ch -> nth_error ch p = Some x ->
      nth_error (seq 0 10)
        (i * Z.to_nat (ceil_div (Py.len (seq 0 10)) 4) + p) = Some x.
Proof. apply (chunked_positions (seq 0 10) 4); [discriminate|lia]. Defined.

(** * Further properties of the collection of results *)

(** The collection returns a list exactly when every job's task
    returned: the list has one result per job, in the order of
    submission. *)
Theorem collect_Return_iff {A R : Type} (delegated_task : Task A R)
    (js : list (Job A)) (rs : list R) :
  collect delegated_task js = Return rs <->
  Forall2 (fun j r => job_result delegated_task j = Return r) js rs.
Proof.
  revert rs. induction js as [|j js IH]; intros rs; simpl.
  - split.
    + intros [= <-]. constructor.
    + intros H. by inversion H.
  - destruct (job_result delegated_task j) as [r|e] eqn:Hj;
      cbn [mbind result_bind].
    + destruct (collect delegated_task js) as [rs'|e] eqn:Hc;
        cbn [mbind result_bind].
      * split.
        -- intros [= <-]. constructor; [done|]. by apply IH.
        -- intros H. inversion H as [|? r' ? rs'' Hr Hrest]; subst.
           apply IH in Hrest. congruence.
      * split; [done|].
        intros H. inversion H as [|? r' ? rs'' Hr Hrest]; subst.
        apply IH in Hrest. discriminate.
    + split; [done|].
      intros H. inversion H; subst. congruence.
Qed.

(** The collection raises the exception of the first job, in the order
    of submission, whose task raised, whatever the later jobs did. *)
Theorem collect_first_failure {A R : Type} (delegated_task : Task A R)
    (js : list (Job A)) (i : nat) (j : Job A) (e : Exn) :
  nth_error js i = Some j ->
  job_result delegated_task j = Raise e ->
  (forall i' j', (i' < i)%nat -> nth_error js i' = Some j' ->
                 is_Return (job_result delegated_task j')) ->
  collect delegated_task js = Raise e.
Proof.
  revert i. induction js as [|j0 js IH]; intros i Hi He Hbefore.
  - by destruct i.
  - destruct i as [|i]; simpl in Hi.
    + injection Hi as ->. simpl. by rewrite He.
    + simpl. destruct (Hbefore 0%nat j0 ltac:(lia) eq_refl) as [r ->].
      cbn [mbind result_bind].
      rewrite (IH i Hi He); [done|].
      intros i' j' Hlt Hj'. apply (Hbefore (S i') j'); [lia|done].
Qed.

Lemma collect_first_failure_witness :
  let task : Task nat bool :=
    fun task_id data =>
      if task_id =? 1 then mkTaskRun 1 (Return true)
      else mkTaskRun 0 (Raise (TaskError task_id)) in
  collect task (jobs (dispatch [[0%nat]; [1%nat]; [2%nat]] (snd (start 3))))
  = Raise (TaskError 2).
Proof.
  cbv zeta.
  apply (collect_first_failure _ _ 1%nat (mkJob 2 [1%nat]) (TaskError 2)).
  - reflexivity.
  - reflexivity.
  - intros [|i'] j' Hlt Hj'; [|lia].
    simpl in Hj'. injection Hj' as <-. by eexists.
Defined.

(** * Further properties of the dispatch loop *)

Section DispatchMore.

Context {A : Type}.
Implicit Types (st : State A) (chunks : list (list A)).

Lemma dispatch_snoc chunks chunk st :
  dispatch (chunks ++ [chunk]) st = dispatch_one (dispatch chunks st) chunk.
Proof. unfold dispatch. by rewrite fold_left_app. Qed.

Lemma dispatch_next_task_id chunks st :
  next_task_id (dispatch chunks st) = next_task_id st + Py.len chunks.
Proof.
  induction chunks as [|chunk chunks IH] using rev_ind.
  - unfold Py.len. simpl. lia.
  - rewrite dispatch_snoc. unfold dispatch_one, register. simpl.
    rewrite IH. unfold Py.len. rewrite length_app. simpl. lia.
Qed.

Lemma dispatch_jobs_length chunks st :
  length (jobs (dispatch chunks st)) = (length (jobs st) + length chunks)%nat.
Proof.
  induction chunks as [|chunk chunks IH] using rev_ind.
  - simpl. lia.
  - rewrite dispatch_snoc. unfold dispatch_one, register. simpl.
    rewrite !length_app, IH. simpl. lia.
Qed.

Lemma dispatch_nth chunks st (i : nat) chunk :
  nth_error chunks i = Some chunk ->
  nth_error (jobs (dispatch chunks st)) (length (jobs st) + i)
  = Some (mkJob (next_task_id st + Z.of_nat i) chunk).
Proof.
  revert i chunk. induction chunks as [|chunk0 chunks IH] using rev_ind;
    intros i chunk Hi.
  - by destruct i.
  - rewrite dispatch_snoc. unfold dispatch_one, register. simpl.
    destruct (Nat.lt_ge_cases i (length chunks)) as [Hlt|Hge].
    + rewrite nth_error_app1 in Hi by done.
      rewrite nth_error_app1 by (rewrite dispatch_jobs_length; lia).
      by apply IH.
    + rewrite nth_error_app2 in Hi by done.
      destruct (i - length chunks)%nat as [|d] eqn:Hd; simpl in Hi;
        [|by destruct d].
      injection Hi as ->.
      rewrite nth_error_app2 by (rewrite dispatch_jobs_length; lia).
      rewrite dispatch_jobs_length.
      replace (length (jobs st) + i - (length (jobs st) + length chunks))%nat
        with 0%nat by lia.
      simpl. rewrite dispatch_next_task_id. unfold Py.len.
      do 2 f_equal. lia.
Qed.

Lemma sum_Permutation (l l' : list Z) :
  Permutation l l' -> Py.sum l = Py.sum l'.
Proof. induction 1; simpl in *; lia. Qed.

Lemma sum_items_insert (m : gmap Z Z) (k v : Z) :
  m !! k = None -> sum_items (<[k := v]> m) = v + sum_items m.
Proof.
  intros Hk. unfold sum_items.
  rewrite (sum_Permutation _ (map snd ((k, v) :: map_to_list m))); [done|].
  apply Permutation_map. by apply map_to_list_insert.
Qed.

Lemma sum_app (l l' : list Z) : Py.sum (l ++ l') = Py.sum l + Py.sum l'.
Proof. induction l; simpl in *; lia. Qed.

Lemma fresh_None (m : gmap Z Z) (next : Z) :
  (forall k, is_Some (m !! k) -> k < next) -> m !! next = None.
Proof.
  intros Hfresh. destruct (m !! next) as [v|] eqn:Hv; [|done].
  specialize (Hfresh next (ex_intro _ v Hv)). lia.
Qed.

Lemma dispatch_sums chunks st :
  dispatched st ->
  sum_items (totals (dispatch chunks st))
  = sum_items (totals st) + Py.sum (sizes chunks) /\
  sum_items (shared_progress (dispatch chunks st))
  = sum_items (shared_progress st).
Proof.
  intros Hst. induction chunks as [|chunk chunks IH] using rev_ind.
  - simpl. lia.
  - rewrite dispatch_snoc.
    pose proof (dispatched_dispatch chunks st Hst) as [Hsp Htot _ _].
    unfold dispatch_one, register. simpl.
    rewrite !sum_items_insert by (by apply fresh_None).
    unfold sizes in *. rewrite map_app, sum_app. simpl. lia.
Qed.

(** What the chunker returns for a positive count puts together to the
    input. *)
Lemma chunked_Return_concat (data : list A) (count : Z) chunks :
  _chunked data count = Return chunks -> 1 <= count ->
  data <> [] /\ chunks <> [] /\ concat chunks = data /\ Py.len chunks <= count.
Proof.
  intros Hr Hc.
  assert (data <> []) as Hne.
  { intros ->. rewrite chunked_nil in Hr. discriminate. }
  split; [done|].
  assert (0 < Py.len data) as Hn.
  { unfold Py.len. destruct data; [done|]. simpl length. lia. }
  rewrite (chunked_eq data count Hne Hc) in Hr. injection Hr as <-.
  pose proof (chunks_cover (Py.len data) count Hn ltac:(lia)) as (Hk & Hcov).
  pose proof (ceil_div_bounds (Py.len data) count Hn ltac:(lia)) as (Hc1 & _).
  cbv zeta in Hk, Hcov.
  set (c := ceil_div (Py.len data) count) in *.
  set (k := (Py.len data - 1) / c + 1) in *.
  split; [|split].
  - destruct (Z.to_nat k) as [|k'] eqn:Hk'; [lia|]. simpl. discriminate.
  - rewrite concat_chunks. apply take_ge. unfold Py.len in *. nia.
  - unfold Py.len at 1. rewrite length_map, length_seq. lia.
Qed.

End DispatchMore.

(** The overall bar has task id 0, and the job of the chunk at index
    [i] has task id [i + 1] and that chunk as its data: one job per
    chunk, in the order of the chunks. *)
Theorem dispatch_job_ids {A : Type} (chunks : list (list A)) (num_workers : Z) :
  let st := dispatch chunks (snd (start num_workers)) in
  fst (start (A := A) num_workers) = 0 /\
  length (jobs st) = length chunks /\
  forall (i : nat) chunk,
    nth_error chunks i = Some chunk ->
    nth_error (jobs st) i = Some (mkJob (Z.of_nat i + 1) chunk).
Proof.
  cbv zeta. split; [reflexivity|]. split.
  - by rewrite dispatch_jobs_length.
  - intros i chunk Hi.
    pose proof (dispatch_nth chunks (snd (start num_workers)) i chunk Hi) as H.
    change (length (jobs (snd (start (A := A) num_workers)))) with 0%nat in H.
    change (next_task_id (snd (start (A := A) num_workers))) with 1 in H.
    rewrite Nat.add_0_l in H. rewrite H. do 2 f_equal. lia.
Qed.

(** * Further properties of the workers *)

Lemma long_task_run_registered {A : Type} (task_id : Z) (data : list A)
    (sp : gmap Z Z) (v : Z) :
  sp !! task_id = Some v ->
  exists sp',
    long_task_run task_id data sp = (sp', Return true) /\
    sp' !! task_id = Some (v + increments (__long_task task_id data)) /\
    (forall k, k <> task_id -> sp' !! k = sp !! k) /\
    (forall js, In (mkJob task_id data) js -> worker_steps js sp sp').
Proof.
  unfold __long_task; simpl.
  assert (forall (rest : list A) sp v,
            sp !! task_id = Some v ->
            exists sp',
              long_task_run task_id rest sp = (sp', Return true) /\
              sp' !! task_id = Some (v + Py.len rest) /\
              (forall k, k <> task_id -> sp' !! k = sp !! k) /\
              (forall (js : list (Job A)) j,
                 In j js -> job_task_id j = task_id ->
                 worker_steps js sp sp')) as Hgen.
  { clear. induction rest as [|x rest IH]; intros sp v Hv.
    - exists sp. split; [done|]. split; [by rewrite Hv, Z.add_0_r|].
      split; [done|]. intros; apply worker_steps_refl.
    - simpl. unfold increment. rewrite Hv.
      destruct (IH (<[task_id := v + 1]> sp) (v + 1)
                  ltac:(by rewrite lookup_insert_eq))
        as (sp' & Hrun & Hid & Hothers & Hsteps).
      exists sp'. split; [done|]. split.
      { rewrite Hid. f_equal. unfold Py.len. simpl length. lia. }
      split.
      { intros k Hk. rewrite Hothers by done. by rewrite lookup_insert_ne. }
      intros js j Hin Hj.
      apply (worker_steps_incr js sp j (<[task_id := v + 1]> sp) sp' Hin).
      + rewrite Hj. unfold increment. by rewrite Hv.
      + by apply (Hsteps js j). }
  intros Hv. destruct (Hgen data sp v Hv) as (sp' & Hrun & Hid & Hothers & Hsteps).
  exists sp'. repeat split; try done.
  intros js Hin. by apply (Hsteps js (mkJob task_id data)).
Qed.

(** [__long_task] on a registered task id returns [True] and leaves the
    entry of its id raised by [len(data)], the other entries as they
    were; the dictionary it leaves is one the workers' increments reach,
    and the count agrees with the summary of the task. *)
Theorem long_task_run_counts {A : Type} (task_id : Z) (data : list A)
    (sp : gmap Z Z) (v : Z) :
  sp !! task_id = Some v ->
  exists sp',
    long_task_run task_id data sp = (sp', Return true) /\
    sp' !! task_id = Some (v + increments (__long_task task_id data)) /\
    (forall k, k <> task_id -> sp' !! k = sp !! k) /\
    (forall js, In (mkJob task_id data) js -> worker_steps js sp sp').
Proof. apply long_task_run_registered. Qed.

Lemma long_task_run_counts_witness :
  exists sp',
    long_task_run 1 [10%nat; 11%nat; 12%nat] {[1 := 0; 2 := 0]}
    = (sp', Return true) /\
    sp' !! 1 = Some (0 + increments (__long_task 1 [10%nat; 11%nat; 12%nat])) /\
    (forall k, k <> 1 -> sp' !! k = ({[1 := 0; 2 := 0]} : gmap Z Z) !! k) /\
    (forall js, In (mkJob 1 [10%nat; 11%nat; 12%nat]) js ->
                worker_steps js {[1 := 0; 2 := 0]} sp').
Proof.
  apply (long_task_run_counts 1 [10%nat; 11%nat; 12%nat] {[1 := 0; 2 := 0]} 0).
  reflexivity.
Defined.

(** [__long_task] on a task id without an entry raises [KeyError] at
    its first item and leaves the dictionary as it was; on no item it
    returns [True] without reading the dictionary. *)
Theorem long_task_run_unregistered {A : Type} (task_id : Z) (data : list A)
    (sp : gmap Z Z) :
  sp !! task_id = None ->
  long_task_run task_id data sp
  = (sp, match data with
         | [] => Return true
         | _ :: _ => Raise (KeyError task_id)
         end).
Proof.
  intros Hv. destruct data as [|x data]; [done|].
  simpl. unfold increment. by rewrite Hv.
Qed.

Lemma long_task_run_unregistered_witness :
  long_task_run 3 [10%nat] {[1 := 0; 2 := 0]}
  = ({[1 := 0; 2 := 0]}, Raise (KeyError 3)).
Proof.
  apply (long_task_run_unregistered 3 [10%nat] {[1 := 0; 2 := 0]}).
  reflexivity.
Defined.

(** * Further properties of the polling loop *)

Section PollingMore.

Context {A : Type}.
Implicit Types (st : State A) (o : Obs) (sched : list Obs).

Lemma sum_flags (f : nat -> bool) (l : list nat) :
  0 <= Py.sum (map (fun i => if f i then 1 else 0) l) <= Py.len l /\
  (Py.sum (map (fun i => if f i then 1 else 0) l) = Py.len l <->
   forall i, In i l -> f i = true).
Proof.
  unfold Py.len. induction l as [|i l [IHb IHe]]; simpl.
  - split; [lia|]. split; [intros _ ? []|done].
  - destruct (f i) eqn:Hf.
    + split; [lia|]. split.
      * intros Hs i' [<-|Hin]; [done|]. apply IHe; [lia|done].
      * intros Hall. assert (forall i', In i' l -> f i' = true) as Hl
          by (intros; apply Hall; by right).
        apply IHe in Hl. lia.
    + split; [lia|]. split; [lia|].
      intros Hall. specialize (Hall i (or_introl eq_refl)). congruence.
Qed.

(** The completion check counts every job iff each reports done. *)
Lemma count_done_all o (js : list (Job A)) :
  count_done o js = Py.len js <->
  forall i, (i < length js)%nat -> obs_done o i = true.
Proof.
  unfold count_done.
  destruct (sum_flags (obs_done o) (seq 0 (length js))) as [_ Hiff].
  unfold Py.len in *. rewrite length_seq in Hiff. rewrite Hiff.
  split; intros H i Hi; apply H; [apply in_seq|apply in_seq in Hi]; lia.
Qed.

Lemma poll_loop_frame task_id_all n sched remaining st :
  let st' := fst (poll_loop task_id_all n sched remaining st) in
  totals st' = totals st /\ jobs st' = jobs st.
Proof.
  revert remaining st. induction sched as [|o sched IH]; intros remaining st;
    simpl.
  - by destruct (remaining =? 0).
  - destruct (remaining =? 0); [done|].
    pose proof (poll_iter_frame task_id_all n o st) as (Htot & Hjobs & _).
    destruct (poll_iter task_id_all n o st) as [st1 [remaining1|e]];
      simpl in *; [|done].
    destruct (IH remaining1 st1) as [Htot' Hjobs']. simpl in *.
    split; congruence.
Qed.

Lemma poll_iter_total task_id_all n o st :
  (forall k, is_Some (obs_items o !! k) -> is_Some (totals st !! k)) ->
  exists st',
    poll_iter task_id_all n o st
    = (st', Return (Py.len (jobs st) - count_done o (jobs st))).
Proof.
  intros Hkeys.
  assert (exists st' remaining,
            poll_iter task_id_all n o st = (st', Return remaining))
    as (st' & remaining & Hiter).
  { unfold poll_iter.
    destruct (render_items_total
                (map_to_list (shared_progress (read_shared o st))) 0
                (read_shared o st)) as (st' & m & Hr).
    - intros task_id latest Hin. apply in_map_to_list in Hin.
      simpl in *. apply Hkeys. by eexists.
    - rewrite Hr. by eexists _, _. }
  exists st'. rewrite Hiter.
  by destruct (poll_iter_Return _ _ _ _ _ _ Hiter) as (-> & _).
Qed.

Lemma render_items_KeyError items n st :
  (exists k v, In (k, v) items /\ totals st !! k = None) ->
  exists st' k',
    render_items items n st = (st', Raise (KeyError k')) /\
    totals st !! k' = None /\ In k' (map fst items).
Proof.
  revert n st. induction items as [|[t l] items IH]; intros n st (k & v & Hin & Hk).
  - destruct Hin.
  - simpl. destruct (totals st !! t) as [total|] eqn:Ht.
    + destruct Hin as [[= -> ->]|Hin]; [congruence|].
      destruct (IH (n + l) (update t l total st)) as (st' & k' & Hr & Hk' & Hin').
      { exists k, v. split; done. }
      exists st', k'. split; [done|]. split; [done|]. by right.
    + exists st, t. split; [done|]. split; [done|]. by left.
Qed.

Lemma poll_loop_exits_from task_id_all n pre o post remaining st :
  remaining <> 0 ->
  (forall o', In o' (pre ++ [o]) ->
     forall k, is_Some (obs_items o' !! k) -> is_Some (totals st !! k)) ->
  (forall o', In o' pre -> count_done o' (jobs st) <> Py.len (jobs st)) ->
  count_done o (jobs st) = Py.len (jobs st) ->
  exists st',
    poll_loop task_id_all n (pre ++ o :: post) remaining st = (st', Return true) /\
    shared_progress st' = obs_items o.
Proof.
  revert remaining st. induction pre as [|o0 pre IH];
    intros remaining st Hrem Hkeys Hpre Hdone; simpl.
  - destruct (Z.eqb_spec remaining 0); [lia|].
    destruct (poll_iter_total task_id_all n o st) as (st' & Hiter).
    { apply Hkeys. by left. }
    pose proof (poll_iter_frame task_id_all n o st) as (_ & _ & Hsp).
    rewrite Hiter in *. simpl in Hsp.
    rewrite Hdone, Z.sub_diag, poll_loop_zero. by exists st'.
  - destruct (Z.eqb_spec remaining 0); [lia|].
    destruct (poll_iter_total task_id_all n o0 st) as (st1 & Hiter).
    { apply Hkeys. by left. }
    pose proof (poll_iter_frame task_id_all n o0 st) as (Htot & Hjobs & _).
    rewrite Hiter in *. simpl in Htot, Hjobs.
    apply IH.
    + specialize (Hpre o0 (or_introl eq_refl)). lia.
    + intros o' Hin. rewrite Htot. apply Hkeys. by right.
    + intros o' Hin. rewrite Hjobs. apply Hpre. by right.
    + by rewrite Hjobs.
Qed.

End PollingMore.

(** While each observation shows some job that is not done, the polling
    loop does not exit. *)
Theorem poll_loop_waits {A : Type} (task_id_all n : Z) (sched : list Obs)
    (st : State A) :
  jobs st <> [] ->
  (forall o, In o sched ->
     exists i, (i < length (jobs st))%nat /\ obs_done o i = false) ->
  snd (poll_loop task_id_all n sched (Py.len (jobs st)) st) <> Return true.
Proof.
  intros Hjobs Hbusy Hexit.
  destruct (poll_loop task_id_all n sched (Py.len (jobs st)) st)
    as [st' r] eqn:Hloop.
  simpl in Hexit. subst r.
  destruct (poll_loop_exit_from _ _ _ _ _ _ Hloop (jobs_len_nonzero _ Hjobs))
    as (pre & o & post & -> & _ & Hdone & _).
  destruct (Hbusy o) as (i & Hi & Hfalse).
  { apply in_or_app. right. by left. }
  rewrite count_done_all in Hdone. specialize (Hdone i Hi). congruence.
Qed.

Lemma poll_loop_waits_witness :
  let st := dispatch [[0%nat]; [1%nat]] (snd (start 2)) in
  snd (poll_loop 0 2 [mkObs {[1 := 1; 2 := 0]} (fun i => Nat.eqb i 0)]
         (Py.len (jobs st)) st) <> Return true.
Proof.
  cbv zeta.
  apply (poll_loop_waits 0 2 [mkObs {[1 := 1; 2 := 0]} (fun i => Nat.eqb i 0)]
           (dispatch [[0%nat]; [1%nat]] (snd (start 2)))).
  - discriminate.
  - intros o [<-|[]]. exists 1%nat. split; [simpl; lia|reflexivity].
Defined.

(** When every key read has a total, the polling loop exits at the
    first observation whose completion check finds every job done,
    with the dictionary as read in that iteration. *)
Theorem poll_loop_exits {A : Type} (task_id_all n : Z) (pre : list Obs)
    (o : Obs) (post : list Obs) (st : State A) :
  jobs st <> [] ->
  (forall o', In o' (pre ++ [o]) ->
     forall k, is_Some (obs_items o' !! k) -> is_Some (totals st !! k)) ->
  (forall o', In o' pre ->
     exists i, (i < length (jobs st))%nat /\ obs_done o' i = false) ->
  (forall i, (i < length (jobs st))%nat -> obs_done o i = true) ->
  exists st',
    poll_loop task_id_all n (pre ++ o :: post) (Py.len (jobs st)) st
    = (st', Return true) /\
    shared_progress st' = obs_items o.
Proof.
  intros Hjobs Hkeys Hpre Hdone.
  apply poll_loop_exits_from.
  - by apply jobs_len_nonzero.
  - done.
  - intros o' Hin Hall. rewrite count_done_all in Hall.
    destruct (Hpre o' Hin) as (i & Hi & Hfalse).
    specialize (Hall i Hi). congruence.
  - by apply count_done_all.
Qed.

Lemma poll_loop_exits_witness :
  let st := dispatch [[0%nat]; [1%nat]] (snd (start 2)) in
  let o := mkObs {[1 := 1; 2 := 1]} (fun _ => true) in
  exists st',
    poll_loop 0 2
      ([mkObs {[1 := 1; 2 := 0]} (fun i => Nat.eqb i 0)] ++ o :: [])
      (Py.len (jobs st)) st
    = (st', Return true) /\
    shared_progress st' = obs_items o.
Proof.
  cbv zeta.
  apply (poll_loop_exits 0 2 [mkObs {[1 := 1; 2 := 0]} (fun i => Nat.eqb i 0)]
           (mkObs {[1 := 1; 2 := 1]} (fun _ => true)) []
           (dispatch [[0%nat]; [1%nat]] (snd (start 2)))).
  - discriminate.
  - intros o' Hin k [v Hv].
    assert (k = 1 \/ k = 2) as [-> | ->].
    { destruct Hin as [<-|[<-|[]]]; simpl in Hv;
        apply lookup_insert_Some in Hv as [[<- _]|[_ Hv]]; auto;
        apply lookup_singleton_Some in Hv as [<- _]; auto. }
    + by eexists.
    + by eexists.
  - intros o' [<-|[]]. exists 1%nat. split; [simpl; lia|reflexivity].
  - done.
Defined.

(** A key read from the dictionary that has no total ends the pass with
    [KeyError]: the loop raises it, for a key of the dictionary that
    has no total. *)
Theorem poll_loop_KeyError {A : Type} (task_id_all n : Z) (o : Obs)
    (sched : list Obs) (remaining : Z) (st : State A) (k v : Z) :
  remaining <> 0 ->
  obs_items o !! k = Some v -> totals st !! k = None ->
  exists st' k',
    poll_loop task_id_all n (o :: sched) remaining st
    = (st', Raise (KeyError k')) /\
    totals st !! k' = None /\ is_Some (obs_items o !! k').
Proof.
  intros Hrem Hk Hnone. simpl.
  destruct (Z.eqb_spec remaining 0); [lia|].
  unfold poll_iter.
  destruct (render_items_KeyError
              (map_to_list (shared_progress (read_shared o st))) 0
              (read_shared o st)) as (st' & k' & Hr & Hk' & Hin).
  { exists k, v. split; [|done]. by apply in_map_to_list. }
  rewrite Hr. exists st', k'. split; [done|]. split; [done|].
  apply in_map_iff in Hin as ([k'' v'] & <- & Hin).
  apply in_map_to_list in Hin. by eexists.
Qed.

Lemma poll_loop_KeyError_witness :
  let st := dispatch [[0%nat]] (snd (start 1)) in
  let o := mkObs {[1 := 1; 7 := 1]} (fun _ => true) in
  exists st' k',
    poll_loop 0 1 [o] 1 st = (st', Raise (KeyError k')) /\
    totals st !! k' = None /\
    is_Some (obs_items o !! k').
Proof.
  cbv zeta.
  apply (poll_loop_KeyError 0 1 (mkObs {[1 := 1; 7 := 1]} (fun _ => true)) [] 1
           (dispatch [[0%nat]] (snd (start 1))) 7 1).
  - lia.
  - reflexivity.
  - reflexivity.
Defined.

(** * Runs of the module as a script *)

Section Script.

Context {A R : Type}.
Implicit Types (delegated_task : Task A R) (data : list A) (sched : list Obs).

(** A run of the script that gets its chunks: lines 86-97 on the
    dispatched state. *)
Lemma pretty_process_main cpu_count delegated_task data num_workers sched chunks :
  1 <= num_workers ->
  _chunked data (default 4 cpu_count) = Return chunks ->
  pretty_process (module_globals "__main__" cpu_count) delegated_task data
                 num_workers sched
  = let st := dispatch chunks (snd (start num_workers)) in
    match poll_loop 0 (Py.len data) sched (Py.len (jobs st)) st with
    | (st, Raise e) => (st, Finished (Raise e))
    | (st, Return false) => (st, Polling)
    | (st, Return true) => (st, Finished (collect delegated_task (jobs st)))
    end.
Proof.
  intros Hnw Hr. rewrite pretty_process_opened by done.
  unfold start. cbn [add_task].
  rewrite load_num_cpus_main. cbn [mbind result_bind].
  rewrite Hr. reflexivity.
Qed.

Lemma dispatch_ids_pos (chunks : list (list A)) num_workers (j : Job A) :
  In j (jobs (dispatch chunks (snd (start num_workers)))) ->
  1 <= job_task_id j.
Proof.
  intros Hin. apply In_nth_error in Hin as [i Hi].
  assert (i < length chunks)%nat as Hlt.
  { rewrite <- (Nat.add_0_l (length chunks)).
    change 0%nat with (length (jobs (snd (start (A := A) num_workers)))).
    rewrite <- dispatch_jobs_length. apply nth_error_Some. congruence. }
  destruct (nth_error chunks i) as [chunk|] eqn:Hc;
    [|apply nth_error_None in Hc; lia].
  pose proof (dispatch_nth chunks (snd (start num_workers)) i chunk Hc) as H.
  change (length (jobs (snd (start (A := A) num_workers)))) with 0%nat in H.
  change (next_task_id (snd (start (A := A) num_workers))) with 1 in H.
  rewrite Nat.add_0_l, Hi in H. injection H as ->. simpl. lia.
Qed.




End Script.



(** When a run of the script returns and the dictionary read in the
    last pass held every total, the overall bar shows [len(data)] of
    [len(data)] and the bar of each job its chunk's length of its
    chunk's length. *)
Theorem pretty_process_full_progress {A R : Type} (cpu_count : option Z)
    (delegated_task : Task A R) (data : list A) (num_workers : Z)
    (sched : list Obs) (st' : State A) (rs : list R) :
  data <> [] -> 1 <= default 4 cpu_count ->
  pretty_process (module_globals "__main__" cpu_count) delegated_task data
                 num_workers sched
  = (st', Finished (Return rs)) ->
  shared_progress st' = totals st' ->
  display st' !! 0 = Some (Py.len data, Py.len data) /\
  forall j, In j (jobs st') ->
    display st' !! job_task_id j
    = Some (Py.len (job_data j), Py.len (job_data j)).
Proof.
  intros Hne Hc Hrun Hfull.
  assert (1 <= num_workers) as Hnw.
  { destruct (Z.le_gt_cases num_workers 0) as [Hle|Hgt]; [|lia].
    rewrite pretty_process_no_pool in Hrun by done. discriminate. }
  pose proof (chunked_eq data (default 4 cpu_count) Hne Hc) as Hr.
  cbv zeta in Hr.
  destruct (chunked_Return_concat data _ _ Hr Hc) as (_ & Hchunks & Hcat & _).
  rewrite (pretty_process_main cpu_count delegated_task data num_workers sched
             _ Hnw Hr) in Hrun.
  cbv zeta in Hrun.
  set (chunks := map _ _) in *.
  set (st := dispatch chunks (snd (start num_workers))) in *.
  pose proof (poll_loop_frame 0 (Py.len data) sched (Py.len (jobs st)) st)
    as (Htot & Hjobs).
  destruct (poll_loop 0 (Py.len data) sched (Py.len (jobs st)) st)
    as [st1 [[|]|e]] eqn:Hloop; try discriminate.
  injection Hrun as -> Hcollect. simpl in Htot, Hjobs.
  assert (jobs st <> []) as Hjne.
  { intros Hnil. apply (f_equal (@length _)) in Hnil.
    unfold st in Hnil. rewrite dispatch_jobs_length in Hnil. simpl in Hnil.
    destruct chunks; [done|]. discriminate. }
  destruct (poll_loop_exit_from _ _ _ _ _ _ Hloop (jobs_len_nonzero _ Hjne))
    as (pre & o & post & _ & _ & _ & _ & Hsp & Hall & Hbars).
  rewrite Hsp, Htot in Hfull.
  destruct (dispatch_sums chunks _ (dispatched_start num_workers)) as [Hsum _].
  fold st in Hsum. change (sum_items (totals (snd (start num_workers)))) with 0 in Hsum.
  pose proof (dispatched_dispatch chunks _ (dispatched_start num_workers))
    as [_ _ _ Hreg].
  fold st in Hreg.
  split.
  - rewrite Hall, Hfull, Hsum, sum_sizes_concat, Hcat. reflexivity.
  - intros j Hin. rewrite Hjobs in Hin.
    destruct (Hreg j Hin) as [_ Htj].
    pose proof (dispatch_ids_pos chunks num_workers j Hin) as Hpos.
    destruct (Hbars (job_task_id j) (Py.len (job_data j)))
      as (total & Htotal & Hbar); [lia|by rewrite Hfull|].
    rewrite Hbar. rewrite Htj in Htotal. by injection Htotal as <-.
Qed.

Lemma pretty_process_full_progress_witness :
  let run := pretty_process (module_globals "__main__" (Some 2))
               (__long_task (A := nat)) (seq 0 3) 2
               [mkObs {[1 := 2; 2 := 1]} (fun _ => true)] in
  display (fst run) !! 0 = Some (Py.len (seq 0 3), Py.len (seq 0 3)) /\
  forall j, In j (jobs (fst run)) ->
    display (fst run) !! job_task_id j
    = Some (Py.len (job_data j), Py.len (job_data j)).
Proof.
  cbv zeta.
  apply (pretty_process_full_progress (Some 2) (__long_task (A := nat))
           (seq 0 3) 2 [mkObs {[1 := 2; 2 := 1]} (fun _ => true)]
           _ [true; true]).
  - discriminate.
  - simpl. lia.
  - vm_compute. reflexivity.
  - vm_compute. reflexivity.
Defined.








(** * The dispatch loop with the workers running *)

Section Interleaving.

Context {A : Type}.
Implicit Types (st : State A) (cfg : Config A) (chunks : list (list A)).

Lemma up_to_workers_refl st : up_to_workers st st.
Proof. by split. Qed.

Lemma dispatching_init chunks st0 :
  dispatching chunks st0 (mkConfig chunks AtAddTask st0).
Proof.
  exists []. split; [done|]. split; [done|]. apply up_to_workers_refl.
Qed.

Lemma dispatching_step chunks st0 cfg cfg' :
  dispatching chunks st0 cfg -> dispatch_step cfg cfg' ->
  dispatching chunks st0 cfg'.
Proof.
  intros (dispatched_chunks & Hsplit & Hpc & Hutw) Hstep.
  destruct Hstep as [chunk rest st|chunk rest task_id st|chunk rest task_id st
                    |chunk rest task_id st|todo pc st j sp' Hin Hincr];
    simpl in *.
  - exists dispatched_chunks. split; [done|].
    destruct Hutw as [Hnext Hdisp Htot Hjobs Hmax Hkeys Hothers].
    split; [split; [done|discriminate]|].
    split; simpl; try done; by rewrite ?Hnext, ?Hdisp.
  - exists dispatched_chunks. split; [done|]. split; [done|].
    destruct Hutw as [Hnext Hdisp Htot Hjobs Hmax Hkeys Hothers].
    split; simpl in *; try done.
    + intros k. destruct (decide (task_id = k)) as [<-|Hne].
      * rewrite !lookup_insert_eq. split; by eexists.
      * rewrite !lookup_insert_ne by done. apply Hkeys.
    + intros k Hk. destruct (decide (task_id = k)) as [<-|Hne].
      * by rewrite !lookup_insert_eq.
      * rewrite !lookup_insert_ne by done. by apply Hothers.
  - exists dispatched_chunks. split; [done|]. split; [done|].
    destruct Hutw as [Hnext Hdisp Htot Hjobs Hmax Hkeys Hothers].
    split; simpl in *; try done. by rewrite Htot.
  - exists (dispatched_chunks ++ [chunk]).
    split; [by rewrite <- app_assoc|]. split; [done|].
    destruct Hpc as [-> _].
    destruct Hutw as [Hnext Hdisp Htot Hjobs Hmax Hkeys Hothers].
    rewrite dispatch_snoc. unfold dispatch_one, register. simpl in *.
    split; simpl; try done.
    + by rewrite Hjobs.
    + intros k Hk. apply Hothers. intros j Hj. apply Hk.
      apply in_or_app. by left.
  - exists dispatched_chunks. split; [done|]. split; [done|].
    destruct Hutw as [Hnext Hdisp Htot Hjobs Hmax Hkeys Hothers].
    unfold increment in Hincr.
    destruct (shared_progress st !! job_task_id j) as [v|] eqn:Hv; [|done].
    injection Hincr as <-.
    split; simpl; try done.
    + intros k. destruct (decide (job_task_id j = k)) as [<-|Hne].
      * rewrite lookup_insert_eq. rewrite <- Hkeys, Hv. split; by eexists.
      * rewrite lookup_insert_ne by done. apply Hkeys.
    + intros k Hk. rewrite lookup_insert_ne by (by apply Hk).
      by apply Hothers.
Qed.

Lemma dispatching_steps chunks st0 cfg cfg' :
  dispatch_steps cfg cfg' -> dispatching chunks st0 cfg ->
  dispatching chunks st0 cfg'.
Proof.
  induction 1 as [cfg|cfg cfg1 cfg2 Hstep _ IH]; [done|].
  intros Hinv. apply IH. by apply (dispatching_step _ _ cfg).
Qed.

(** The statements of one iteration, with no worker in between, are
    [dispatch_one]. *)
Lemma dispatch_one_steps chunk rest st :
  dispatch_steps (mkConfig (chunk :: rest) AtAddTask st)
                 (mkConfig rest AtAddTask (dispatch_one st chunk)).
Proof.
  eapply rtc_l; [apply step_add_task|].
  eapply rtc_l; [apply step_set_progress|].
  eapply rtc_l; [apply step_set_totals|].
  eapply rtc_l; [apply step_submit|].
  apply rtc_refl.
Qed.

Lemma dispatch_main_steps chunks rest st :
  dispatch_steps (mkConfig (chunks ++ rest) AtAddTask st)
                 (mkConfig rest AtAddTask (dispatch chunks st)).
Proof.
  revert st. induction chunks as [|chunk chunks IH]; intros st.
  - apply rtc_refl.
  - simpl. eapply rtc_trans; [apply dispatch_one_steps|apply IH].
Qed.

(** What a configuration reached from the start of the loop has. *)
Lemma dispatching_facts chunks num_workers cfg :
  dispatch_steps (mkConfig chunks AtAddTask (snd (start num_workers))) cfg ->
  (forall task_id, cfg_pc cfg = AtSubmit task_id ->
     exists chunk rest,
       cfg_todo cfg = chunk :: rest /\
       shared_progress (cfg_state cfg) !! task_id = Some 0 /\
       totals (cfg_state cfg) !! task_id = Some (Py.len chunk) /\
       forall j, In j (jobs (cfg_state cfg)) -> job_task_id j <> task_id) /\
  (forall j, In j (jobs (cfg_state cfg)) ->
     is_Some (shared_progress (cfg_state cfg) !! job_task_id j) /\
     totals (cfg_state cfg) !! job_task_id j = Some (Py.len (job_data j))) /\
  (cfg_todo cfg = [] ->
     up_to_workers (dispatch chunks (snd (start num_workers))) (cfg_state cfg)).
Proof.
  intros Hsteps.
  destruct (dispatching_steps chunks _ _ _ Hsteps (dispatching_init _ _))
    as (dispatched_chunks & Hsplit & Hpc & Hutw).
  set (base := dispatch dispatched_chunks (snd (start num_workers))) in *.
  pose proof (dispatched_dispatch dispatched_chunks _
                (dispatched_start num_workers)) as [Hfsp Hftot Hkeys Hjobs].
  fold base in Hfsp, Hftot, Hkeys, Hjobs.
  assert (forall j, In j (jobs base) -> job_task_id j < next_task_id base)
    as Hids.
  { intros j Hj. apply Hfsp. destruct (Hjobs j Hj) as [-> _]. by eexists. }
  destruct Hutw as [Hnext Hdisp Htot Hjobs' Hmax Hk Hothers].
  destruct cfg as [todo pc st]. simpl in *.
  assert (jobs st = jobs base) as Hjb by (rewrite Hjobs'; by destruct pc).
  split; [|split].
  - intros task_id ->. destruct Hpc as [-> Htodo]. simpl in *.
    destruct todo as [|chunk rest]; [done|]. exists chunk, rest. simpl in *.
    assert (forall j, In j (jobs st) -> job_task_id j <> next_task_id base)
      as Hne.
    { intros j Hj. rewrite Hjb in Hj. specialize (Hids j Hj). lia. }
    split; [done|]. split; [|split; [|done]].
    + rewrite Hothers by done. by rewrite lookup_insert_eq.
    + rewrite Htot. by rewrite lookup_insert_eq.
  - intros j Hj. rewrite Hjb in Hj.
    destruct (Hjobs j Hj) as [Hj0 Hjt]. specialize (Hids j Hj).
    split.
    + apply Hk. destruct pc as [|t|t|t]; simpl; [by eexists..| |];
        destruct Hpc as [-> _]; rewrite lookup_insert_ne by lia; by eexists.
    + rewrite Htot. destruct pc as [|t|t|t]; simpl; try done.
      destruct Hpc as [-> _]. by rewrite lookup_insert_ne by lia.
  - intros ->. rewrite app_nil_r in Hsplit. subst dispatched_chunks.
    destruct pc as [|t|t|t]; [by split|by destruct Hpc..].
Qed.

End Interleaving.

(** C10: in every run of the dispatch loop, with the workers of the
    submitted jobs incrementing between its statements, when the main
    process is about to submit a job the entry of its task id is 0 in
    [shared_progress] and the chunk's length in [totals], and no
    submitted job has that id; every submitted job has both entries, so
    its worker's [+= 1] raises no [KeyError]; and when the loop is over,
    whatever the workers have done and do, each key of the dictionary
    read by the polling loop has a total, so that a pass over it raises
    no [KeyError]. *)
Theorem registered_before_submit {A : Type} (chunks : list (list A))
    (num_workers : Z) (cfg : Config A) :
  dispatch_steps (mkConfig chunks AtAddTask (snd (start num_workers))) cfg ->
  (forall task_id, cfg_pc cfg = AtSubmit task_id ->
     exists chunk rest,
       cfg_todo cfg = chunk :: rest /\
       shared_progress (cfg_state cfg) !! task_id = Some 0 /\
       totals (cfg_state cfg) !! task_id = Some (Py.len chunk) /\
       forall j, In j (jobs (cfg_state cfg)) -> job_task_id j <> task_id) /\
  (forall j, In j (jobs (cfg_state cfg)) ->
     is_Return (increment (job_task_id j) (shared_progress (cfg_state cfg))) /\
     totals (cfg_state cfg) !! job_task_id j = Some (Py.len (job_data j))) /\
  (cfg_todo cfg = [] ->
     let st := dispatch chunks (snd (start num_workers)) in
     jobs (cfg_state cfg) = jobs st /\
     totals (cfg_state cfg) = totals st /\
     forall snapshot,
       worker_steps (jobs st) (shared_progress (cfg_state cfg)) snapshot ->
       (forall task_id, is_Some (snapshot !! task_id) ->
                        is_Some (totals st !! task_id)) /\
       (forall task_id_all n is_done,
          exists st' remaining,
            poll_iter task_id_all n (mkObs snapshot is_done) st
            = (st', Return remaining))).
Proof.
  intros Hsteps.
  destruct (dispatching_facts chunks num_workers cfg Hsteps)
    as (Hsubmit & Hjobs & Hend).
  split; [exact Hsubmit|]. split.
  - intros j Hj. destruct (Hjobs j Hj) as [[v Hv] Htot].
    split; [|done]. unfold increment. rewrite Hv. by eexists.
  - intros Htodo. cbv zeta.
    destruct (Hend Htodo) as [_ _ Htot Hjb _ Hkeys _].
    split; [done|]. split; [done|].
    intros snapshot Hws.
    pose proof (dispatched_dispatch chunks _ (dispatched_start num_workers))
      as [_ _ Hreg _].
    assert (forall task_id, is_Some (snapshot !! task_id) ->
              is_Some (totals (dispatch chunks (snd (start num_workers)))
                       !! task_id)) as Hsnap.
    { intros task_id Hk. apply Hreg, Hkeys.
      by apply (worker_steps_keys _ _ _ Hws). }
    split; [done|].
    intros task_id_all n is_done.
    destruct (poll_iter_total task_id_all n (mkObs snapshot is_done)
                (dispatch chunks (snd (start num_workers))) Hsnap)
      as (st' & Hiter).
    by eexists _, _.
Qed.

(** A run on two chunks: the first job is submitted, its worker
    increments once, and the main process is about to submit the
    second job. *)
Lemma registered_before_submit_witness :
  let st1 := dispatch_one (snd (start 3)) [0%nat; 1%nat] in
  let st2 := worker_write (<[1 := 0 + 1]> (shared_progress st1)) st1 in
  let cfg := mkConfig [[2%nat]] (AtSubmit 2)
               (set_totals 2 1 (set_shared_progress 2 0 (snd (add_task st2)))) in
  dispatch_steps (mkConfig [[0%nat; 1%nat]; [2%nat]] AtAddTask (snd (start 3)))
                 cfg /\
  (exists chunk rest,
     cfg_todo cfg = chunk :: rest /\
     shared_progress (cfg_state cfg) !! 2 = Some 0 /\
     totals (cfg_state cfg) !! 2 = Some (Py.len chunk) /\
     forall j, In j (jobs (cfg_state cfg)) -> job_task_id j <> 2) /\
  (forall j, In j (jobs (cfg_state cfg)) ->
     is_Return (increment (job_task_id j) (shared_progress (cfg_state cfg))) /\
     totals (cfg_state cfg) !! job_task_id j = Some (Py.len (job_data j))).
Proof.
  cbv zeta.
  assert (dispatch_steps
            (mkConfig [[0%nat; 1%nat]; [2%nat]] AtAddTask (snd (start 3)))
            (mkConfig [[2%nat]] (AtSubmit 2)
               (set_totals 2 1
                  (set_shared_progress 2 0
                     (snd (add_task
                        (worker_write
                           (<[1 := 0 + 1]>
                              (shared_progress
                                 (dispatch_one (snd (start 3)) [0%nat; 1%nat])))
                           (dispatch_one (snd (start 3)) [0%nat; 1%nat]))))))))
    as Hsteps.
  { eapply rtc_trans; [apply dispatch_one_steps|].
    eapply rtc_l.
    { apply step_worker with (j := mkJob 1 [0%nat; 1%nat]);
        [by left|reflexivity]. }
    eapply rtc_l; [apply step_add_task|].
    eapply rtc_l; [apply step_set_progress|].
    eapply rtc_l; [apply step_set_totals|].
    apply rtc_refl. }
  split; [exact Hsteps|].
  destruct (registered_before_submit _ _ _ Hsteps) as (Hsubmit & Hjobs & _).
  split; [exact (Hsubmit 2 eq_refl)|exact Hjobs].
Defined.

(** The worker of a submitted job finds the entry of its task id at
    every moment of the dispatch loop and after it, whatever the other
    workers have done, because the entry is set before the job is
    submitted: its [+= 1] raises no [KeyError], and [__long_task] on the
    job's chunk returns [True]. *)
Theorem submitted_job_increments {A : Type} (chunks : list (list A))
    (num_workers : Z) (cfg : Config A) (j : Job A) :
  dispatch_steps (mkConfig chunks AtAddTask (snd (start num_workers))) cfg ->
  In j (jobs (cfg_state cfg)) ->
  is_Return (increment (job_task_id j) (shared_progress (cfg_state cfg))) /\
  snd (long_task_run (job_task_id j) (job_data j)
         (shared_progress (cfg_state cfg))) = Return true.
Proof.
  intros Hsteps Hin.
  destruct (dispatching_facts chunks num_workers cfg Hsteps) as (_ & Hjobs & _).
  destruct (Hjobs j Hin) as [[v Hv] _].
  split.
  - unfold increment. rewrite Hv. by eexists.
  - destruct (long_task_run_registered (job_task_id j) (job_data j) _ v Hv)
      as (sp' & -> & _). done.
Qed.

Lemma submitted_job_increments_witness :
  let st1 := dispatch_one (snd (start 3)) [0%nat; 1%nat] in
  let st2 := worker_write (<[1 := 0 + 1]> (shared_progress st1)) st1 in
  let cfg := mkConfig [[2%nat]] (AtSetProgress 2) (snd (add_task st2)) in
  is_Return (increment 1 (shared_progress (cfg_state cfg))) /\
  snd (long_task_run 1 [0%nat; 1%nat] (shared_progress (cfg_state cfg)))
  = Return true.
Proof.
  cbv zeta.
  apply (submitted_job_increments [[0%nat; 1%nat]; [2%nat]] 3
           (mkConfig [[2%nat]] (AtSetProgress 2)
              (snd (add_task
                 (worker_write
                    (<[1 := 0 + 1]>
                       (shared_progress
                          (dispatch_one (snd (start 3)) [0%nat; 1%nat])))
                    (dispatch_one (snd (start 3)) [0%nat; 1%nat])))))
           (mkJob 1 [0%nat; 1%nat])).
  - eapply rtc_trans; [apply dispatch_one_steps|].
    eapply rtc_l.
    { apply step_worker with (j := mkJob 1 [0%nat; 1%nat]);
        [by left|reflexivity]. }
    eapply rtc_l; [apply step_add_task|].
    apply rtc_refl.
  - by left.
Defined.

(** When the chunks that the chunker returns for a positive count are
    all dispatched, the totals recorded add up to [len(data)], the
    total of the overall bar, whatever the workers have done. *)
Theorem dispatch_totals_sum {A : Type} (data : list A) (count num_workers : Z)
    (chunks : list (list A)) (cfg : Config A) :
  _chunked data count = Return chunks -> 1 <= count ->
  dispatch_steps (mkConfig chunks AtAddTask (snd (start num_workers))) cfg ->
  cfg_todo cfg = [] ->
  sum_items (totals (cfg_state cfg)) = Py.len data.
Proof.
  intros Hr Hc Hsteps Htodo.
  destruct (chunked_Return_concat data count chunks Hr Hc) as (_ & _ & Hcat & _).
  destruct (dispatching_facts chunks num_workers cfg Hsteps) as (_ & _ & Hend).
  destruct (Hend Htodo) as [_ _ Htot _ _ _ _].
  destruct (dispatch_sums chunks _ (dispatched_start num_workers)) as [Ht _].
  rewrite Htot, Ht, sum_sizes_concat, Hcat. reflexivity.
Qed.

Lemma dispatch_totals_sum_witness :
  let chunks := [[0; 1; 2]; [3; 4; 5]; [6; 7; 8]; [9]]%nat in
  sum_items (totals (dispatch chunks (snd (start 4)))) = Py.len (seq 0 10).
Proof.
  cbv zeta.
  apply (dispatch_totals_sum (seq 0 10) 4 4
           [[0; 1; 2]; [3; 4; 5]; [6; 7; 8]; [9]]%nat
           (mkConfig [] AtAddTask
              (dispatch [[0; 1; 2]; [3; 4; 5]; [6; 7; 8]; [9]]%nat
                        (snd (start 4))))).
  - reflexivity.
  - lia.
  - apply (dispatch_main_steps [[0; 1; 2]; [3; 4; 5]; [6; 7; 8]; [9]]%nat []).
  - reflexivity.
Defined.

(** * The exit of the polling loop *)

Section Exit.

Context {A : Type}.
Implicit Types (st : State A) (o : Obs) (sched : list Obs).

Lemma some_not_done o (js : list (Job A)) :
  count_done o js <> Py.len js ->
  exists i, (i < length js)%nat /\ obs_done o i = false.
Proof.
  unfold count_done, Py.len.
  assert (forall l : list nat,
            Py.sum (map (fun i => if obs_done o i then 1 else 0) l)
            <> Z.of_nat (length l) ->
            exists i, In i l /\ obs_done o i = false) as Hgen.
  { induction l as [|i l IH]; simpl; [done|].
    destruct (obs_done o i) eqn:Hi.
    - intros Hne. destruct IH as (i' & Hin & Hf); [lia|].
      exists i'. split; [by right|done].
    - intros _. exists i. split; [by left|done]. }
  intros Hne. destruct (Hgen (seq 0 (length js))) as (i & Hin & Hf).
  { by rewrite length_seq. }
  exists i. split; [|done]. apply in_seq in Hin. lia.
Qed.

(** The state at the exit does not depend on what would be observed
    after it. *)
Lemma poll_loop_exits_any task_id_all n pre o remaining st :
  remaining <> 0 ->
  (forall o', In o' (pre ++ [o]) ->
     forall k, is_Some (obs_items o' !! k) -> is_Some (totals st !! k)) ->
  (forall o', In o' pre -> count_done o' (jobs st) <> Py.len (jobs st)) ->
  count_done o (jobs st) = Py.len (jobs st) ->
  exists st',
    forall post,
      poll_loop task_id_all n (pre ++ o :: post) remaining st
      = (st', Return true).
Proof.
  revert remaining st. induction pre as [|o0 pre IH];
    intros remaining st Hrem Hkeys Hpre Hdone.
  - destruct (poll_iter_total task_id_all n o st) as (st' & Hiter).
    { apply Hkeys. by left. }
    exists st'. intros post. simpl.
    destruct (Z.eqb_spec remaining 0); [lia|].
    rewrite Hiter, Hdone, Z.sub_diag. apply poll_loop_zero.
  - destruct (poll_iter_total task_id_all n o0 st) as (st1 & Hiter).
    { apply Hkeys. by left. }
    pose proof (poll_iter_frame task_id_all n o0 st) as (Htot & Hjobs & _).
    rewrite Hiter in *. simpl in Htot, Hjobs.
    destruct (IH (Py.len (jobs st) - count_done o0 (jobs st)) st1)
      as (st' & Hall).
    + specialize (Hpre o0 (or_introl eq_refl)). lia.
    + intros o' Hin. rewrite Htot. apply Hkeys. by right.
    + intros o' Hin. rewrite Hjobs. apply Hpre. by right.
    + by rewrite Hjobs.
    + exists st'. intros post. simpl.
      destruct (Z.eqb_spec remaining 0); [lia|].
      rewrite Hiter. apply Hall.
Qed.

End Exit.

(** C4, as the code has it: whenever the keys read have totals, the
    polling loop exits right after the first iteration whose completion
    check finds every job done, and no observation after that one is
    read; at the exit the bar of each key read in that iteration shows
    the count read then against the total recorded for the key, and the
    overall bar shows the sum of the counts read then against
    [len(data)].  The loop exits in no other way. *)
Theorem poll_loop_exit {A : Type} (task_id_all n : Z) (sched : list Obs)
    (st : State A) :
  jobs st <> [] ->
  (forall pre o post,
     sched = pre ++ o :: post ->
     (forall o', In o' (pre ++ [o]) ->
        forall k, is_Some (obs_items o' !! k) -> is_Some (totals st !! k)) ->
     (forall o', In o' pre ->
        exists i, (i < length (jobs st))%nat /\ obs_done o' i = false) ->
     (forall i, (i < length (jobs st))%nat -> obs_done o i = true) ->
     exists st',
       (forall post',
          poll_loop task_id_all n (pre ++ o :: post') (Py.len (jobs st)) st
          = (st', Return true)) /\
       shared_progress st' = obs_items o /\
       display st' !! task_id_all = Some (sum_items (obs_items o), n) /\
       (forall task_id latest,
          task_id <> task_id_all -> obs_items o !! task_id = Some latest ->
          exists total, totals st !! task_id = Some total /\
                        display st' !! task_id = Some (latest, total))) /\
  (forall st',
     poll_loop task_id_all n sched (Py.len (jobs st)) st = (st', Return true) ->
     exists pre o post,
       sched = pre ++ o :: post /\
       (forall o', In o' pre ->
          exists i, (i < length (jobs st))%nat /\ obs_done o' i = false) /\
       (forall i, (i < length (jobs st))%nat -> obs_done o i = true) /\
       shared_progress st' = obs_items o).
Proof.
  intros Hjobs. pose proof (jobs_len_nonzero _ Hjobs) as Hnz. split.
  - intros pre o post -> Hkeys Hpre Hdone.
    destruct (poll_loop_exits_any task_id_all n pre o (Py.len (jobs st)) st Hnz
                Hkeys) as (st' & Hexit).
    { intros o' Hin Hall. rewrite count_done_all in Hall.
      destruct (Hpre o' Hin) as (i & Hi & Hfalse).
      specialize (Hall i Hi). congruence. }
    { by apply count_done_all. }
    exists st'. split; [exact Hexit|].
    destruct (poll_loop_exit_from _ _ _ _ _ _ (Hexit post) Hnz)
      as (pre' & o' & post' & _ & _ & _ & _ & Hsp & Hall & Hbars).
    destruct (poll_loop_exits_from task_id_all n pre o post
                (Py.len (jobs st)) st Hnz Hkeys) as (st'' & Hexit' & Hsp').
    { intros o1 Hin Hall1. rewrite count_done_all in Hall1.
      destruct (Hpre o1 Hin) as (i & Hi & Hfalse).
      specialize (Hall1 i Hi). congruence. }
    { by apply count_done_all. }
    rewrite (Hexit post) in Hexit'. injection Hexit' as <-.
    rewrite Hsp in Hsp'. rewrite Hsp' in Hall, Hbars.
    split; [by rewrite Hsp|]. split; [exact Hall|exact Hbars].
  - intros st' Hloop.
    destruct (poll_loop_exit_from _ _ _ _ _ _ Hloop Hnz)
      as (pre & o & post & -> & Hpre & Hdone & _ & Hsp & _).
    exists pre, o, post. split; [done|]. split; [|split; [|done]].
    + intros o' Hin. apply some_not_done. by apply Hpre.
    + by apply count_done_all.
Qed.

(** Two jobs; the first check finds one of them done, the second both. *)
Lemma poll_loop_exit_witness :
  let st := dispatch [[0%nat]; [1%nat]] (snd (start 2)) in
  let o1 := mkObs (<[1 := 0 + 1]> (shared_progress st)) (fun i => Nat.eqb i 0) in
  let o2 := mkObs (<[2 := 0 + 1]> (obs_items o1)) (fun _ => true) in
  exists st',
    (forall post',
       poll_loop 0 2 ([o1] ++ o2 :: post') (Py.len (jobs st)) st
       = (st', Return true)) /\
    shared_progress st' = obs_items o2 /\
    display st' !! 0 = Some (sum_items (obs_items o2), 2) /\
    (forall task_id latest,
       task_id <> 0 -> obs_items o2 !! task_id = Some latest ->
       exists total, totals st !! task_id = Some total /\
                     display st' !! task_id = Some (latest, total)).
Proof.
  cbv zeta.
  refine (proj1 (poll_loop_exit 0 2 _
                   (dispatch [[0%nat]; [1%nat]] (snd (start 2))) _)
            [_] _ [] eq_refl _ _ _).
  - discriminate.
  - intros o' Hin k [v Hv].
    assert (k = 1 \/ k = 2) as [-> | ->]; [|by eexists..].
    destruct Hin as [<-|[<-|[]]]; simpl in Hv;
      repeat (apply lookup_insert_Some in Hv as [[<- _]|[_ Hv]]; auto);
      by rewrite lookup_empty in Hv.
  - intros o' [<-|[]]. exists 1%nat. split; [simpl; lia|reflexivity].
  - done.
Defined.
